(** * skewtpy.wyoming: retrieval and parsing of a University of Wyoming sounding

    Shallow embedding of [src/skewtpy/wyoming.py] ([sounding_exists] and
    [get_wyoming_sounding]) together with the Python string methods and the
    two regular expressions the module relies on.

    A Python [str] is a sequence of Unicode code points; it is modelled as
    [list N].  Python [int] is modelled as [Z]. *)

From Stdlib Require Import Strings.String Strings.Ascii Numbers.DecimalString.
From Stdlib Require Import List ZArith NArith Lia Bool Arith.
Import ListNotations.

Set Implicit Arguments.

(** ** Python strings *)

Module PyStr.

Definition char := N.
Definition pystr := list char.

(** A string literal of the source, as a sequence of code points. *)
Definition lit (s : string) : pystr := map N_of_ascii (list_ascii_of_string s).

Definition ch (a : ascii) : char := N_of_ascii a.

Definition chr_eqb (a b : char) : bool := N.eqb a b.

Fixpoint str_eqb (s t : pystr) : bool :=
  match s, t with
  | [], [] => true
  | a :: s', b :: t' => chr_eqb a b && str_eqb s' t'
  | _, _ => false
  end.

(** [str.isspace] on one code point (CPython's [_PyUnicode_IsWhitespace]);
    the same class is matched by the regular-expression escape [\s] on a
    [str] pattern. *)
Definition is_space (c : char) : bool :=
  ((9 <=? c) && (c <=? 13) || (28 <=? c) && (c <=? 32) || (c =? 133)
   || (c =? 160) || (c =? 5760) || (8192 <=? c) && (c <=? 8202)
   || (c =? 8232) || (c =? 8233) || (c =? 8239) || (c =? 8287)
   || (c =? 12288))%N.

(** Line boundaries recognised by [str.splitlines]
    (CPython's [_PyUnicode_IsLinebreak]). *)
Definition is_linebreak (c : char) : bool :=
  ((10 <=? c) && (c <=? 13) || (28 <=? c) && (c <=? 30) || (c =? 133)
   || (c =? 8232) || (c =? 8233))%N.

Definition LF : char := 10%N.
Definition CR : char := 13%N.

(** [s.lstrip()], [s.rstrip()] and [s.strip()] with no argument. *)
Fixpoint lstrip (s : pystr) : pystr :=
  match s with
  | c :: s' => if is_space c then lstrip s' else s
  | [] => []
  end.

Definition rstrip (s : pystr) : pystr := rev (lstrip (rev s)).

Definition strip (s : pystr) : pystr := rstrip (lstrip s).

(** Truth value of a string: non-empty. *)
Definition truthy (s : pystr) : bool :=
  match s with [] => false | _ :: _ => true end.

(** [s.startswith(p)]. *)
Fixpoint startswith (p s : pystr) : bool :=
  match p, s with
  | [], _ => true
  | a :: p', b :: s' => chr_eqb a b && startswith p' s'
  | _ :: _, [] => false
  end.

(** [p in s]: substring test. *)
Fixpoint contains (p s : pystr) : bool :=
  startswith p s ||
  match s with
  | [] => false
  | _ :: s' => contains p s'
  end.

(** [s.splitlines()] (keepends is false).  [acc] holds the current line
    reversed.  A carriage return directly followed by a line feed is one
    boundary; a last line is produced only when it is non-empty. *)
Fixpoint splitlines_from (acc : pystr) (s : pystr) : list pystr :=
  match s with
  | [] => match acc with [] => [] | _ :: _ => [rev acc] end
  | c :: s' =>
      if is_linebreak c then
        rev acc ::
        match s' with
        | d :: s'' =>
            if chr_eqb c CR && chr_eqb d LF
            then splitlines_from [] s''
            else splitlines_from [] s'
        | [] => splitlines_from [] s'
        end
      else splitlines_from (c :: acc) s'
  end.

Definition splitlines (s : pystr) : list pystr := splitlines_from [] s.

(** [sep.join(parts)]. *)
Fixpoint join (sep : pystr) (parts : list pystr) : pystr :=
  match parts with
  | [] => []
  | [p] => p
  | p :: rest => p ++ sep ++ join sep rest
  end.

(** [s.split()] with no argument: maximal runs of non-whitespace. *)
Fixpoint split_from (acc : pystr) (s : pystr) : list pystr :=
  match s with
  | [] => match acc with [] => [] | _ :: _ => [rev acc] end
  | c :: s' =>
      if is_space c then
        match acc with
        | [] => split_from [] s'
        | _ :: _ => rev acc :: split_from [] s'
        end
      else split_from (c :: acc) s'
  end.

Definition split (s : pystr) : list pystr := split_from [] s.

(** [str(n)] for an [int]. *)
Definition str_of_int (n : Z) : pystr := lit (NilZero.string_of_int (Z.to_int n)).

(** [format(n, "02d")]: sign-aware zero padding to a minimum width of two.
    Only a single non-negative digit is shorter than the width. *)
Definition format_02d (n : Z) : pystr :=
  if ((0 <=? n) && (n <? 10))%Z then ch "0" :: str_of_int n else str_of_int n.

(** Python sequence indexing [xs[i]]: a negative index counts from the end;
    [None] stands for [IndexError]. *)
Definition index {A} (xs : list A) (i : Z) : option A :=
  let n := Z.of_nat (length xs) in
  if (0 <=? i)%Z then nth_error xs (Z.to_nat i)
  else if (- n <=? i)%Z then nth_error xs (Z.to_nat (n + i))
  else None.

(** Python slicing [xs[i:]]. *)
Definition slice_from {A} (xs : list A) (i : Z) : list A :=
  let n := Z.of_nat (length xs) in
  if (0 <=? i)%Z then skipn (Z.to_nat i) xs
  else skipn (Z.to_nat (Z.max 0 (n + i))) xs.

(** Python slicing [xs[:j]] for the non-negative [j] produced by
    [enumerate]. *)
Definition slice_to {A} (xs : list A) (j : nat) : list A := firstn j xs.

End PyStr.

(** ** The fragment of Python's [re] used by the module

    A backtracking matcher for sequences of single-character atoms with the
    quantifiers [*], [{n,}] and [*?], the anchors [^] and [$] and one
    capturing group.  Alternatives are tried in the order of the [re]
    engine: a greedy quantifier takes as much as it can and gives back, a
    lazy one takes as little as it can and extends. *)

Module Regex.
Import PyStr.

Inductive atom :=
| ALit (c : char)            (* a literal character *)
| AAny                       (* [.] *)
| ASpace                     (* [\s] *)
| ANotIn (cs : list char).   (* [[^...]] *)

Inductive item :=
| One (a : atom)
| Star (a : atom)                 (* [a*] *)
| AtLeast (n : nat) (a : atom)    (* [a{n,}] *)
| LazyStar (a : atom)             (* [a*?] *)
| Bol                             (* [^] *)
| Eol                             (* [$] *)
| GroupOpen                       (* [(] *)
| GroupClose.                     (* [)] *)

Record flags := { DOTALL : bool; IGNORECASE : bool }.

(** The other case of an ASCII letter.  This is all of case-insensitive
    matching for the letters of the patterns below: no other code point
    lower-cases to p, r or e. *)
Definition swapcase (c : char) : char :=
  if ((65 <=? c) && (c <=? 90))%N then (c + 32)%N
  else if ((97 <=? c) && (c <=? 122))%N then (c - 32)%N
  else c.

Definition atom_matches (fl : flags) (a : atom) (c : char) : bool :=
  match a with
  | ALit x => chr_eqb c x || (IGNORECASE fl && chr_eqb c (swapcase x))
  | AAny => DOTALL fl || negb (chr_eqb c LF)
  | ASpace => is_space c
  | ANotIn cs => negb (existsb (chr_eqb c) cs)
  end.

(** A match: end position and the span of group 1. *)
Definition span := (option nat * option nat)%type.
Definition result := (nat * span)%type.
Definition cont := pystr -> nat -> option result.

Section Quantifiers.
Variable fl : flags.
Variable a : atom.
Variable k : cont.

Fixpoint greedy (s : pystr) (pos : nat) : option result :=
  match s with
  | c :: s' =>
      if atom_matches fl a c then
        match greedy s' (S pos) with
        | Some r => Some r
        | None => k s pos
        end
      else k s pos
  | [] => k s pos
  end.

Fixpoint lazy (s : pystr) (pos : nat) : option result :=
  match k s pos with
  | Some r => Some r
  | None =>
      match s with
      | c :: s' => if atom_matches fl a c then lazy s' (S pos) else None
      | [] => None
      end
  end.

Definition one (s : pystr) (pos : nat) : option result :=
  match s with
  | c :: s' => if atom_matches fl a c then k s' (S pos) else None
  | [] => None
  end.
End Quantifiers.

Fixpoint times (fl : flags) (a : atom) (n : nat) (k : cont) : cont :=
  match n with
  | O => k
  | S n' => one fl a (times fl a n' k)
  end.

(** [$] without MULTILINE: at the end, or just before a final line feed. *)
Definition at_eol (s : pystr) : bool :=
  match s with
  | [] => true
  | [c] => chr_eqb c LF
  | _ => false
  end.

Fixpoint exec (fl : flags) (pat : list item) (g : span) (s : pystr) (pos : nat)
  : option result :=
  match pat with
  | [] => Some (pos, g)
  | One a :: p => one fl a (exec fl p g) s pos
  | Star a :: p => greedy fl a (exec fl p g) s pos
  | AtLeast n a :: p => times fl a n (greedy fl a (exec fl p g)) s pos
  | LazyStar a :: p => lazy fl a (exec fl p g) s pos
  | Bol :: p => if Nat.eqb pos 0 then exec fl p g s pos else None
  | Eol :: p => if at_eol s then exec fl p g s pos else None
  | GroupOpen :: p => exec fl p (Some pos, snd g) s pos
  | GroupClose :: p => exec fl p (fst g, Some pos) s pos
  end.

(** [re.match]: a match anchored at position 0. *)
Definition re_match (fl : flags) (pat : list item) (text : pystr) : option result :=
  exec fl pat (None, None) text 0.

(** [re.search]: the leftmost start position that matches. *)
Fixpoint search_from (fl : flags) (pat : list item) (s : pystr) (pos : nat)
  : option result :=
  match exec fl pat (None, None) s pos with
  | Some r => Some r
  | None =>
      match s with
      | [] => None
      | _ :: s' => search_from fl pat s' (S pos)
      end
  end.

Definition re_search (fl : flags) (pat : list item) (text : pystr) : option result :=
  search_from fl pat text 0.

(** [match.group(1)]; a group that did not take part gives [None]. *)
Definition group1 (text : pystr) (r : result) : option pystr :=
  match snd r with
  | (Some b, Some e) => Some (firstn (e - b) (skipn b text))
  | _ => None
  end.

(** A run of literal characters, as a pattern. *)
Definition lits (xs : list char) : list item := map (fun x => One (ALit x)) xs.

End Regex.

(** ** Exceptions, the network and the data frame *)

(** [ValueError] is one raised by the module itself, [ReaderError] an
    exception raised inside [pandas.read_fwf], and [Uncaught cls] an
    exception of class [cls] raised inside [requests.get] that is not a
    [RequestException]. *)
Inductive exn :=
| ValueError (msg : PyStr.pystr)
| IndexError
| AttributeError
| ReaderError
| Uncaught (cls : PyStr.pystr).

Inductive outcome (A : Type) :=
| Return (a : A)
| Raise (e : exn).
Arguments Return {A} a.
Arguments Raise {A} e.

Definition obind {A B} (m : outcome A) (f : A -> outcome B) : outcome B :=
  match m with
  | Return a => f a
  | Raise e => Raise e
  end.

Notation "x <-- m ;; f" := (obind m (fun x => f))
  (at level 61, m at next level, right associativity).

Definition of_option {A} (o : option A) (e : exn) : outcome A :=
  match o with
  | Some a => Return a
  | None => Raise e
  end.

(** [requests.Response], reduced to the attributes a caller can observe. *)
Record Response := {
  status_code : Z;
  resp_url : PyStr.pystr;
  text : PyStr.pystr
}.

Inductive http_method := GET | POST.

(** One call of the requests library, by its method and arguments. *)
Record Request := {
  req_method : http_method;
  req_url : PyStr.pystr;
  req_timeout : Z
}.

(** [Response.raise_for_status] of the requests library: it raises an
    [HTTPError], which is a [RequestException], for a status from 400 to
    599 and returns for every other status. *)
Definition raise_for_status (r : Response) : bool :=
  ((400 <=? status_code r) && (status_code r <? 600))%Z.

(** What a call of [requests.get] does: it raises a [RequestException]
    (connection error, timeout, invalid URL, ...), it raises an exception
    of another class (a [ValueError] for a timeout that is not positive, a
    [LocationParseError] of urllib3, ...), or it returns a response. *)
Inductive get_result :=
| RequestException
| Escapes (cls : PyStr.pystr)
| Returned (r : Response).

(** Code that talks to the network threads the log of the calls made to
    [requests.get]. *)
Definition Net (A : Type) := list Request -> A * list Request.

Definition ret {A} (a : A) : Net A := fun log => (a, log).

Definition bind {A B} (m : Net A) (f : A -> Net B) : Net B :=
  fun log => let (a, log') := m log in f a log'.

Notation "x <~ m ;; f" := (bind m (fun x => f))
  (at level 61, m at next level, right associativity).

(** A [pandas.DataFrame]: column labels, rows of cells and the [attrs]
    dictionary. *)
Section Frame.
Variable Cell : Type.

Record DataFrame := {
  df_columns : list PyStr.pystr;
  df_rows : list (list Cell);
  df_attrs : list (PyStr.pystr * PyStr.pystr)
}.

(** [d[key] = v] on a dictionary kept in insertion order. *)
Fixpoint dict_set (key v : PyStr.pystr) (d : list (PyStr.pystr * PyStr.pystr))
  : list (PyStr.pystr * PyStr.pystr) :=
  match d with
  | [] => [(key, v)]
  | (k0, v0) :: d' =>
      if PyStr.str_eqb k0 key then (k0, v) :: d' else (k0, v0) :: dict_set key v d'
  end.

Fixpoint dict_get (key : PyStr.pystr) (d : list (PyStr.pystr * PyStr.pystr))
  : option PyStr.pystr :=
  match d with
  | [] => None
  | (k0, v0) :: d' => if PyStr.str_eqb k0 key then Some v0 else dict_get key d'
  end.

Definition set_attr (key v : PyStr.pystr) (df : DataFrame) : DataFrame :=
  {| df_columns := df_columns df;
     df_rows := df_rows df;
     df_attrs := dict_set key v (df_attrs df) |}.
End Frame.

(** ** [skewtpy/wyoming.py] *)

Module Wyoming.
Import PyStr Regex.

Definition re_flags_none : flags := {| DOTALL := false; IGNORECASE := false |}.
Definition re_flags_pre : flags := {| DOTALL := true; IGNORECASE := true |}.

(** [r"<pre[^>]*>(.*?)</pre>"] *)
Definition PRE_RE : list item :=
  [ One (ALit (ch "<")); One (ALit (ch "p")); One (ALit (ch "r"));
    One (ALit (ch "e")); Star (ANotIn [ch ">"]); One (ALit (ch ">"));
    GroupOpen; LazyStar AAny; GroupClose;
    One (ALit (ch "<")); One (ALit (ch "/")); One (ALit (ch "p"));
    One (ALit (ch "r")); One (ALit (ch "e")); One (ALit (ch ">")) ].

(** [r"^\s*-{5,}\s*$"] *)
Definition SEP_RE : list item :=
  [ Bol; Star ASpace; AtLeast 5 (ALit (ch "-")); Star ASpace; Eol ].

Definition is_some {A} (o : option A) : bool :=
  match o with Some _ => true | None => false end.

(** [re.match(r"^\s*-{5,}\s*$", ln)] as a truth value. *)
Definition is_separator (ln : pystr) : bool :=
  is_some (re_match re_flags_none SEP_RE ln).

Definition stop_markers : list pystr :=
  [ lit "###"; lit "Station information"; lit "Observations" ].

(** [any(mk in ln for mk in stop_markers)] *)
Definition has_stop_marker (ln : pystr) : bool :=
  existsb (fun mk => contains mk ln) stop_markers.

(** The [for i, ln in enumerate(data_lines)] loop with its [break]. *)
Fixpoint cut_from (i : nat) (data_lines : list pystr) : option nat :=
  match data_lines with
  | [] => None
  | ln :: rest => if has_stop_marker ln then Some i else cut_from (S i) rest
  end.

Definition cut (data_lines : list pystr) : option nat := cut_from 0 data_lines.

Definition truncate (data_lines : list pystr) : list pystr :=
  match cut data_lines with
  | Some i => slice_to data_lines i
  | None => data_lines
  end.

(** The condition of the list comprehension. *)
Definition keep (ln : pystr) : bool :=
  truthy (strip ln) && negb (is_separator ln).

Definition header_line (lines : list pystr) (header_idx : Z) : outcome pystr :=
  ln <-- of_option (index lines header_idx) IndexError ;;
  Return (strip ln).

Definition units_line (lines : list pystr) (header_idx : Z) : outcome pystr :=
  if (header_idx + 1 <? Z.of_nat (length lines))%Z then
    ln <-- of_option (index lines (header_idx + 1)) IndexError ;;
    Return (strip ln)
  else Return [].

Definition data_start (lines : list pystr) (header_idx : Z) : outcome Z :=
  let data_start := (header_idx + 2)%Z in
  if (data_start <? Z.of_nat (length lines))%Z then
    ln <-- of_option (index lines data_start) IndexError ;;
    if is_separator ln then Return (data_start + 1)%Z else Return data_start
  else Return data_start.

(** The surviving data lines and the text handed to the reader. *)
Definition data_lines (lines : list pystr) (data_start : Z) : list pystr :=
  filter keep (truncate (slice_from lines data_start)).

Definition data_text (lines : list pystr) (data_start : Z) : pystr :=
  strip (join [LF] (data_lines lines data_start)).

Definition build_url (year month day hour station : Z) (region : pystr) : pystr :=
  let month := format_02d month in
  let ddhh := format_02d day ++ format_02d hour in
  lit "https://weather.uwyo.edu/cgi-bin/sounding?"
  ++ lit "region=" ++ region ++ lit "&TYPE=TEXT%3ALIST&YEAR=" ++ str_of_int year
  ++ lit "&MONTH=" ++ month
  ++ lit "&FROM=" ++ ddhh ++ lit "&TO=" ++ ddhh ++ lit "&STNM=" ++ str_of_int station.

Definition MSG_UNAVAILABLE : pystr :=
  lit "Sounding not available for this datetime/station.".
Definition MSG_NO_PRE : pystr := lit "No <pre> block found in response.".
Definition MSG_NO_ROWS : pystr := lit "No data rows found.".

Section Pipeline.
(** The world outside the module: what [requests.get] does with a call
    given the calls made so far, the verdict of the status check
    [Response.raise_for_status] (the library's is [raise_for_status]), and
    [pandas.read_fwf] called with [header=None, names=colnames] ([None]
    when it raises). *)
Variable server : list Request -> Request -> get_result.
Variable raises_for_status : Response -> bool.
Variable Cell : Type.
Variable read_fwf : pystr -> list pystr -> option (DataFrame Cell).

Definition requests_get (url : pystr) (timeout : Z) : Net get_result :=
  fun log =>
    let rq := {| req_method := GET; req_url := url; req_timeout := timeout |} in
    (server log rq, log ++ [rq]).

(** The [try] block catches [requests.RequestException] only: any other
    exception leaves the function. *)
Definition sounding_exists (url : pystr) (timeout : Z)
  : Net (outcome (bool * option Response)) :=
  r <~ requests_get url timeout ;;
  match r with
  | RequestException => ret (Return (false, None))
  | Escapes cls => ret (Raise (Uncaught cls))
  | Returned response =>
      if raises_for_status response then ret (Return (false, None))
      else if contains (lit "Can't get") (text response)
              || contains (lit "No data available") (text response)
      then ret (Return (false, Some response))
      else if (length (strip (text response)) <? 200)%nat
      then ret (Return (false, Some response))
      else ret (Return (true, Some response))
  end.

(** Lines 143-188: from the regular-expression search to the return. *)
Definition extract_and_parse (response : Response) (header_idx : Z)
  : outcome (DataFrame Cell) :=
  match re_search re_flags_pre PRE_RE (text response) with
  | None => Raise (ValueError MSG_NO_PRE)
  | Some m =>
      pre_block <-- of_option (group1 (text response) m) AttributeError ;;
      let lines := splitlines pre_block in
      header_line <-- header_line lines header_idx ;;
      units_line <-- units_line lines header_idx ;;
      data_start <-- data_start lines header_idx ;;
      let data_text := data_text lines data_start in
      if negb (truthy data_text) then Raise (ValueError MSG_NO_ROWS)
      else
        let colnames := split header_line in
        df <-- of_option (read_fwf data_text colnames) ReaderError ;;
        Return (set_attr (lit "units") units_line df)
  end.

Definition DEFAULT_TIMEOUT : Z := 30.

Definition get_wyoming_sounding
  (year month day hour station : Z) (region : pystr) (header_idx : Z)
  : Net (outcome (DataFrame Cell)) :=
  let url := build_url year month day hour station region in
  er <~ sounding_exists url DEFAULT_TIMEOUT ;;
  match er with
  | Raise e => ret (Raise e)
  | Return (false, _) => ret (Raise (ValueError MSG_UNAVAILABLE))
  | Return (true, None) => ret (Raise AttributeError)
  | Return (true, Some response) => ret (extract_and_parse response header_idx)
  end.

End Pipeline.
End Wyoming.

(** ** The vocabulary of the specification

    The words of the specification as definitions of their own, to be
    compared with the code above. *)

Module Spec.
Import PyStr Regex Wyoming.

(** A blank line: nothing but whitespace. *)
Definition blank (ln : pystr) : bool := forallb is_space ln.

Definition DASH : char := ch "-".

(** A separator line: five or more consecutive dashes, optionally
    surrounded by whitespace, nothing else on the line. *)
Definition Separator (ln : pystr) : Prop :=
  exists a n b,
    ln = a ++ repeat DASH n ++ b /\ blank a = true /\ blank b = true /\ 5 <= n.

Definition separator (ln : pystr) : bool :=
  let core := strip ln in
  (5 <=? length core) && forallb (chr_eqb DASH) core.

(** [p] occurs in [s]. *)
Definition Contains (p s : pystr) : Prop := exists a b, s = a ++ p ++ b.

(** A line containing a stop marker. *)
Definition HasStopMarker (ln : pystr) : Prop :=
  Contains (lit "###") ln \/ Contains (lit "Station information") ln
  \/ Contains (lit "Observations") ln.

(** [region] is the part of [candidates] before the first line with a stop
    marker, or all of it when there is no such line. *)
Definition UpToFirstStop (candidates region : list pystr) : Prop :=
  Forall (fun ln => ~ HasStopMarker ln) region /\
  (candidates = region \/
   exists stop rest, candidates = region ++ stop :: rest /\ HasStopMarker stop).

(** A data line: neither blank nor a separator. *)
Definition survives (ln : pystr) : bool := negb (blank ln) && negb (separator ln).

(** Equality of a tag with its pattern up to the case of ASCII letters. *)
Definition same_char (x c : char) : Prop := c = x \/ c = swapcase x.
Definition ci_equal (p s : pystr) : Prop := Forall2 same_char p s.

(** An opening tag, possibly with attributes, and a closing tag somewhere
    after it, start [s]. *)
Definition OpensAt (s : pystr) : Prop :=
  exists tag attrs inner close rest,
    s = tag ++ attrs ++ [ch ">"] ++ inner ++ close ++ rest /\
    ci_equal (lit "<pre") tag /\
    Forall (fun c => c <> ch ">") attrs /\
    ci_equal (lit "</pre>") close.

(** A closing tag starts [s]. *)
Definition ClosesAt (s : pystr) : Prop :=
  exists close rest, s = close ++ rest /\ ci_equal (lit "</pre>") close.

(** The body contains an opening tag and a closing tag after it. *)
Definition HasPreBlock (body : pystr) : Prop :=
  exists before s, body = before ++ s /\ OpensAt s.

(** [pre] is the inner text of the first pair of tags of [body]: no pair
    opens further left, and no closing tag starts inside [pre]. *)
Definition FirstPair (body pre : pystr) : Prop :=
  exists before tag attrs close rest,
    body = before ++ tag ++ attrs ++ [ch ">"] ++ pre ++ close ++ rest /\
    ci_equal (lit "<pre") tag /\
    Forall (fun c => c <> ch ">") attrs /\
    ci_equal (lit "</pre>") close /\
    (forall b1 b2, before = b1 ++ b2 -> b2 <> [] ->
       ~ OpensAt (b2 ++ tag ++ attrs ++ [ch ">"] ++ pre ++ close ++ rest)) /\
    (forall p1 p2, pre = p1 ++ p2 -> p2 <> [] -> ~ ClosesAt (p2 ++ close ++ rest)).

(** A string of exactly [n] decimal digits. *)
Definition is_digit (c : char) : bool := ((48 <=? c) && (c <=? 57))%N.
Definition digits (n : nat) (s : pystr) : Prop :=
  length s = n /\ forallb is_digit s = true.

(** The value of a string of decimal digits. *)
Definition decimal_value (s : pystr) : Z :=
  fold_left (fun acc c => (10 * acc + (Z.of_N c - 48))%Z) s 0%Z.

(** The request line as the interface section describes it. *)
Definition url_template (region year month ddhh station : pystr) : pystr :=
  lit "https://weather.uwyo.edu/cgi-bin/sounding?region=" ++ region
  ++ lit "&TYPE=TEXT%3ALIST&YEAR=" ++ year ++ lit "&MONTH=" ++ month
  ++ lit "&FROM=" ++ ddhh ++ lit "&TO=" ++ ddhh ++ lit "&STNM=" ++ station.

(** The pieces of a text between line feeds, as a file object iterates
    over it. *)
Fixpoint pieces_from (acc : pystr) (s : pystr) : list pystr :=
  match s with
  | [] => [rev acc]
  | c :: s' =>
      if chr_eqb c LF then rev acc :: pieces_from [] s'
      else pieces_from (c :: acc) s'
  end.

Definition text_lines (s : pystr) : list pystr := pieces_from [] s.

(** Modelled from the spec: [pandas.read_fwf] is not part of the
    repository.  The specification has it parse each data line as one
    fixed-width row; a reader has this property when a frame it returns
    holds one row per non-blank line of the text it was given. *)
Definition one_row_per_line {Cell : Type}
  (read_fwf : pystr -> list pystr -> option (DataFrame Cell)) : Prop :=
  forall text names df,
    read_fwf text names = Some df ->
    length (df_rows df) = length (filter (fun ln => negb (blank ln)) (text_lines text)).

(** The prober's view of the transport. *)
Section Transport.
Variable server : list Request -> Request -> get_result.

Definition the_request (url : pystr) (timeout : Z) : Request :=
  {| req_method := GET; req_url := url; req_timeout := timeout |}.

(** A status for which the status check raises: 4xx or 5xx. *)
Definition ErrorStatus (r : Response) : Prop :=
  (400 <= status_code r < 600)%Z.

(** The call failed in a way the prober catches: [requests.get] raised a
    [RequestException], or the response came with an error status. *)
Definition TransportFailed (log : list Request) (rq : Request) : Prop :=
  server log rq = RequestException \/
  exists r, server log rq = Returned r /\ ErrorStatus r.

Definition Delivered (log : list Request) (rq : Request) (r : Response) : Prop :=
  server log rq = Returned r /\ ~ ErrorStatus r.
End Transport.

(** A body with a "no data" phrase, or too short once trimmed. *)
Definition LooksEmpty (body : pystr) : Prop :=
  Contains (lit "Can't get") body \/ Contains (lit "No data available") body
  \/ length (strip body) < 200.

Definition looks_empty (body : pystr) : bool :=
  contains (lit "Can't get") body || contains (lit "No data available") body
  || (length (strip body) <? 200).

(** The inner text of the first preformatted block of a body. *)
Definition first_block (body : pystr) : option pystr :=
  match re_search re_flags_pre PRE_RE body with
  | Some m => group1 body m
  | None => None
  end.

(** Modelled from the spec: the pair of tags matched greedily, as the
    specification words it.  The pattern is that of the code with [.*] in
    place of [.*?], so the inner text runs up to the last closing tag. *)
Definition PRE_RE_GREEDY : list item :=
  [ One (ALit (ch "<")); One (ALit (ch "p")); One (ALit (ch "r"));
    One (ALit (ch "e")); Star (ANotIn [ch ">"]); One (ALit (ch ">"));
    GroupOpen; Star AAny; GroupClose;
    One (ALit (ch "<")); One (ALit (ch "/")); One (ALit (ch "p"));
    One (ALit (ch "r")); One (ALit (ch "e")); One (ALit (ch ">")) ].

Definition greedy_block (body : pystr) : option pystr :=
  match re_search re_flags_pre PRE_RE_GREEDY body with
  | Some m => group1 body m
  | None => None
  end.

(** A line free of line feeds, and one free of any line boundary. *)
Definition no_lf (ln : pystr) : bool := forallb (fun c => negb (chr_eqb c LF)) ln.
Definition no_break (ln : pystr) : bool := forallb (fun c => negb (is_linebreak c)) ln.

(** A data line as the reader sees it: some visible character, no line
    feed. *)
Definition solid (ln : pystr) : Prop := blank ln = false /\ no_lf ln = true.

Section Endings.
Variable Cell : Type.

(** Every way [extract_and_parse] can end. *)
Inductive ending (r : Response) (header_idx : Z) : outcome (DataFrame Cell) -> Prop :=
| EndNoBlock :
    ~ HasPreBlock (text r) ->
    ending r header_idx (Raise (ValueError MSG_NO_PRE))
| EndNoHeader pre :
    first_block (text r) = Some pre ->
    index (splitlines pre) header_idx = None ->
    ending r header_idx (Raise IndexError)
| EndNoRows pre ds :
    first_block (text r) = Some pre ->
    index (splitlines pre) header_idx <> None ->
    data_start (splitlines pre) header_idx = Return ds ->
    blank (join [LF] (data_lines (splitlines pre) ds)) = true ->
    ending r header_idx (Raise (ValueError MSG_NO_ROWS))
| EndReader pre ds :
    first_block (text r) = Some pre ->
    index (splitlines pre) header_idx <> None ->
    data_start (splitlines pre) header_idx = Return ds ->
    blank (join [LF] (data_lines (splitlines pre) ds)) = false ->
    ending r header_idx (Raise ReaderError)
| EndTable pre ds df :
    first_block (text r) = Some pre ->
    index (splitlines pre) header_idx <> None ->
    data_start (splitlines pre) header_idx = Return ds ->
    blank (join [LF] (data_lines (splitlines pre) ds)) = false ->
    ending r header_idx (Return df).
End Endings.

(** The request line with a four-digit year, a two-digit month and a
    day+hour token of two digits each. *)
Definition ClaimedUrl (url region station : pystr) : Prop :=
  exists Y M D H,
    digits 4 Y /\ digits 2 M /\ digits 2 D /\ digits 2 H /\
    url = url_template region Y M (D ++ H) station.

(** Checks run over the finite ranges of years and of two-digit fields. *)
Definition year_ok (k : nat) : bool :=
  let s := str_of_int (Z.of_nat k) in
  (length s =? 4) && forallb is_digit s && (decimal_value s =? Z.of_nat k)%Z.

Definition two_ok (k : nat) : bool :=
  let s := format_02d (Z.of_nat k) in
  (length s =? 2) && forallb is_digit s && (decimal_value s =? Z.of_nat k)%Z.

(** A character that is not whitespace. *)
Definition visible (c : char) : bool := negb (is_space c).

(** A token: non-empty and free of whitespace. *)
Definition token (t : pystr) : Prop := t <> [] /\ forallb visible t = true.

(** [f] applied to the first, respectively the last, element of a list. *)
Definition map_first {A} (f : A -> A) (xs : list A) : list A :=
  match xs with
  | [] => []
  | x :: rest => f x :: rest
  end.

Definition map_last {A} (f : A -> A) (xs : list A) : list A :=
  rev (map_first f (rev xs)).

(** The lines of a text after [strip] on the whole text: the first line
    loses its leading whitespace and the last its trailing whitespace. *)
Definition outer_trim (xs : list pystr) : list pystr :=
  map_last rstrip (map_first lstrip xs).

(** A line the reader can take for a data row. *)
Definition clean (t : pystr) : Prop :=
  blank t = false /\ ~ Separator t /\ ~ HasStopMarker t.

End Spec.

(** ** Sample worlds used to exercise the statements *)

Module Sample.
Import PyStr Regex Wyoming Spec.

(** Modelled from the spec: a stand-in for [pandas.read_fwf], which is not
    part of the repository.  Each non-blank line of the text is one row,
    its cells the whitespace-separated tokens of the line; the column
    labels are the names passed in. *)
Definition line_reader (text : pystr) (names : list pystr)
  : option (DataFrame pystr) :=
  Some {| df_columns := names;
          df_rows := map split (filter (fun ln => negb (blank ln)) (text_lines text));
          df_attrs := [] |}.

Definition NL : string := String (ascii_of_nat 10) EmptyString.

Definition padding : pystr := repeat (ch "x") 200.

(** A page in the layout of the archive, the units line indented. *)
Definition page : pystr :=
  lit ("<html><PRE class='snd'>" ++ NL
       ++ "-----------------" ++ NL
       ++ "  PRES HGHT TEMP" ++ NL
       ++ "   hPa    m    C " ++ NL
       ++ "-----------------" ++ NL
       ++ "  1000   10   20" ++ NL
       ++ NL
       ++ "   900  100   15" ++ NL
       ++ "Station information and sounding indices" ++ NL
       ++ "   800  200   10" ++ NL
       ++ "</pre></html>") ++ padding.

(** A page whose block holds a title only. *)
Definition short_page : pystr := lit "<pre>title</pre>" ++ padding.

Definition response_of (code : Z) (body : pystr) : Response :=
  {| status_code := code; resp_url := lit "https://weather.uwyo.edu/"; text := body |}.

Definition serve (body : pystr) (log : list Request) (rq : Request) : get_result :=
  Returned (response_of 200 body).

Definition never_raises (r : Response) : bool := false.

(** Three lines of a block, the units line indented. *)
Definition indented_block : list pystr :=
  [ lit "PRES HGHT TEMP"; lit "  hPa    m    C "; lit "1000   10   20" ].

Definition mirror_response : Response :=
  {| status_code := 203; resp_url := lit "https://mirror.example/"; text := page |}.

Definition serve_mirror (log : list Request) (rq : Request) : get_result :=
  Returned mirror_response.

(** What the stand-in reader makes of [page]. *)
Definition page_frame : DataFrame pystr :=
  {| df_columns := [lit "PRES"; lit "HGHT"; lit "TEMP"];
     df_rows := [ [lit "1000"; lit "10"; lit "20"];
                  [lit "900"; lit "100"; lit "15"] ];
     df_attrs := [(lit "units", lit "hPa    m    C")] |}.

(** A page whose block has a header and units but only blank data lines. *)
Definition blank_page : pystr :=
  lit ("<pre>" ++ NL ++ NL ++ "PRES HGHT TEMP" ++ NL ++ "hPa m C" ++ NL
       ++ "-----" ++ NL ++ "   " ++ NL ++ NL ++ "</pre>") ++ padding.

(** The page the archive sends for a missing sounding. *)
Definition no_data_page : pystr := lit "No data available".

Definition sample_url : pystr := build_url 2024 3 5 12 76679 (lit "naconf").

(** A transport that treats its arguments as the requests library does
    for a well-formed URL: a timeout that is not positive is refused with
    a [ValueError], which is not a [RequestException]; otherwise the body
    is served with the status given. *)
Definition serve_checked (code : Z) (body : pystr) (log : list Request)
  (rq : Request) : get_result :=
  if (req_timeout rq <=? 0)%Z then Escapes (lit "ValueError")
  else Returned (response_of code body).

(** A page with two blocks: the first holds a header line and a units line
    but no data, the second holds a data row. *)
Definition first_of_two : pystr :=
  lit (NL ++ NL ++ "PRES HGHT TEMP" ++ NL ++ "hPa m C" ++ NL).

Definition two_blocks : pystr :=
  lit "<pre>" ++ first_of_two ++ lit "</pre>"
  ++ lit ("<p>archive copy</p><pre>" ++ NL ++ "1000 10 20" ++ NL ++ "</pre>")
  ++ padding.

(** Modelled from the behaviour of the pandas library, which is not part of
    the repository: a stand-in for [pandas.read_fwf] called with
    [header=None] and as many names as there are columns, reduced to what
    decides the rows.  The column ranges are inferred from the first 100
    lines of the text: a position belongs to a column when one of these
    lines holds there a character other than a fill character (space, tab,
    line feed, carriage return), and the columns are the maximal runs of
    such positions.  A field is the slice of a line over a column range
    with the fill characters trimmed, and a line whose fields are all empty
    is skipped.  The cells are left as the texts of the fields. *)
Definition is_fill (c : char) : bool :=
  chr_eqb c LF || chr_eqb c CR || chr_eqb c 9%N || chr_eqb c 32%N.

Fixpoint mask_or (a b : list bool) : list bool :=
  match a, b with
  | [], _ => b
  | _, [] => a
  | x :: a', y :: b' => (x || y) :: mask_or a' b'
  end.

Definition mask_of (rows : list pystr) : list bool :=
  fold_left (fun m row => mask_or m (map (fun c => negb (is_fill c)) row)) rows [].

(** The half-open ranges of the maximal runs of [true] in a mask. *)
Fixpoint ranges_from (pos : nat) (start : option nat) (mask : list bool)
  : list (nat * nat) :=
  match mask with
  | [] => match start with Some b => [(b, pos)] | None => [] end
  | true :: mask' =>
      ranges_from (S pos) (match start with Some b => Some b | None => Some pos end)
                  mask'
  | false :: mask' =>
      match start with
      | Some b => (b, pos) :: ranges_from (S pos) None mask'
      | None => ranges_from (S pos) None mask'
      end
  end.

Definition INFER_NROWS : nat := 100.

Definition detect_colspecs (rows : list pystr) : list (nat * nat) :=
  ranges_from 0 None (mask_of (firstn INFER_NROWS rows)).

Fixpoint lstrip_fill (s : pystr) : pystr :=
  match s with
  | c :: s' => if is_fill c then lstrip_fill s' else s
  | [] => []
  end.

Definition strip_fill (s : pystr) : pystr :=
  rev (lstrip_fill (rev (lstrip_fill s))).

Definition fields (colspecs : list (nat * nat)) (ln : pystr) : list pystr :=
  map (fun cs => strip_fill (firstn (snd cs - fst cs) (skipn (fst cs) ln))) colspecs.

Definition fwf_reader (text : pystr) (names : list pystr)
  : option (DataFrame pystr) :=
  let rows := text_lines text in
  let colspecs := detect_colspecs rows in
  Some {| df_columns := names;
          df_rows := filter (existsb truthy) (map (fields colspecs) rows);
          df_attrs := [] |}.

(** A page with 101 data lines: a hundred lines with a value in the first
    position, then one whose only value stands further right. *)
Definition ragged_page : pystr :=
  lit ("<pre>" ++ NL ++ "-----" ++ NL ++ "N" ++ NL ++ "u" ++ NL ++ "-----" ++ NL)
  ++ concat (repeat (lit ("1" ++ NL)) 100)
  ++ lit ("  5" ++ NL ++ "</pre>").

(** The inner text of the block of [page]. *)
Definition page_block : pystr :=
  match first_block page with
  | Some pre => pre
  | None => []
  end.

End Sample.

(** ** Facts about the string methods *)

Module PyStrFacts.
Import PyStr Spec.

Lemma chr_eqb_eq (a b : char) : chr_eqb a b = true <-> a = b.
Proof. apply N.eqb_eq. Qed.

Lemma chr_eqb_refl (a : char) : chr_eqb a a = true.
Proof. apply N.eqb_refl. Qed.

Lemma str_eqb_refl (s : pystr) : str_eqb s s = true.
Proof.
  induction s as [|c s IH]; simpl; [reflexivity|].
  now rewrite chr_eqb_refl, IH.
Qed.

Lemma blank_app (a b : pystr) : blank (a ++ b) = blank a && blank b.
Proof. apply forallb_app. Qed.

Lemma blank_rev (a : pystr) : blank (rev a) = blank a.
Proof.
  induction a as [|c a IH]; simpl; [reflexivity|].
  rewrite blank_app, IH. simpl. rewrite andb_true_r. apply andb_comm.
Qed.

Lemma lstrip_blank_app (a s : pystr) :
  blank a = true -> lstrip (a ++ s) = lstrip s.
Proof.
  induction a as [|c a IH]; simpl; intros H; [reflexivity|].
  apply andb_true_iff in H as [Hc Ha]. rewrite Hc. auto.
Qed.

Lemma lstrip_head (c : char) (s : pystr) :
  is_space c = false -> lstrip (c :: s) = c :: s.
Proof. intros H. simpl. now rewrite H. Qed.

(** [lstrip] removes a blank prefix and stops at a non-space. *)
Lemma lstrip_split (s : pystr) :
  exists a, s = a ++ lstrip s /\ blank a = true /\
            (lstrip s = [] \/ exists c r, lstrip s = c :: r /\ is_space c = false).
Proof.
  induction s as [|c s (a & Hs & Ha & Hr)].
  - exists []. simpl. auto.
  - simpl. destruct (is_space c) eqn:Hc.
    + exists (c :: a). simpl. rewrite Hc, Ha. split; [now f_equal|]. auto.
    + exists []. simpl. split; [reflexivity|]. split; [reflexivity|].
      right. now exists c, s.
Qed.

Lemma lstrip_nil_blank (s : pystr) : lstrip s = [] <-> blank s = true.
Proof.
  induction s as [|c s IH]; simpl; [tauto|].
  destruct (is_space c); simpl; [exact IH|].
  split; discriminate.
Qed.

Lemma rstrip_app_blank (s b : pystr) :
  blank b = true -> rstrip (s ++ b) = rstrip s.
Proof.
  intros H. unfold rstrip. rewrite rev_app_distr, lstrip_blank_app; [reflexivity|].
  now rewrite blank_rev.
Qed.

Lemma rstrip_last (s : pystr) (c : char) :
  is_space c = false -> rstrip (s ++ [c]) = s ++ [c].
Proof.
  intros H. unfold rstrip. rewrite rev_app_distr. simpl.
  rewrite H. simpl. now rewrite rev_involutive.
Qed.

Lemma rstrip_split (s : pystr) :
  exists b, s = rstrip s ++ b /\ blank b = true /\
            (rstrip s = [] \/ exists r c, rstrip s = r ++ [c] /\ is_space c = false).
Proof.
  destruct (lstrip_split (rev s)) as (a & Hs & Ha & Hr).
  exists (rev a). unfold rstrip. split; [|split].
  - rewrite <- rev_app_distr, <- Hs. now rewrite rev_involutive.
  - now rewrite blank_rev.
  - destruct Hr as [Hr | (c & r & Hr & Hc)].
    + left. now rewrite Hr.
    + right. exists (rev r), c. now rewrite Hr.
Qed.

(** The first character of a string that does not start with a space
    survives [rstrip] unless everything is stripped. *)
Lemma rstrip_keeps_head (c : char) (s : pystr) :
  is_space c = false -> exists r, rstrip (c :: s) = c :: r.
Proof.
  intros Hc. destruct (rstrip_split (c :: s)) as (b & Hs & Hb & Hr).
  destruct (rstrip (c :: s)) as [|d r] eqn:E.
  - simpl in Hs. subst b. simpl in Hb. now rewrite Hc in Hb.
  - simpl in Hs. injection Hs as -> _. now exists r.
Qed.

(** [strip] peels a blank prefix and a blank suffix off a core that is
    empty or begins and ends with a non-space. *)
Lemma strip_split (s : pystr) :
  exists a b, s = a ++ strip s ++ b /\ blank a = true /\ blank b = true.
Proof.
  destruct (lstrip_split s) as (a & Hs & Ha & _).
  destruct (rstrip_split (lstrip s)) as (b & Hl & Hb & _).
  exists a, b. unfold strip. now rewrite <- Hl.
Qed.

Lemma strip_nil_blank (s : pystr) : strip s = [] <-> blank s = true.
Proof.
  split.
  - intros H. destruct (strip_split s) as (a & b & Hs & Ha & Hb).
    rewrite H in Hs. simpl in Hs. rewrite Hs, blank_app, Ha, Hb. reflexivity.
  - intros H. unfold strip. apply lstrip_nil_blank in H. now rewrite H.
Qed.

Lemma truthy_strip (s : pystr) : truthy (strip s) = negb (blank s).
Proof.
  destruct (strip s) eqn:E.
  - apply strip_nil_blank in E. now rewrite E.
  - destruct (blank s) eqn:B; [|reflexivity].
    apply strip_nil_blank in B. congruence.
Qed.

(** A core that begins and ends with a non-space is what [strip] returns. *)
Lemma strip_core (a b core : pystr) (c d : char) (mid : pystr) :
  blank a = true -> blank b = true ->
  core = c :: mid -> (exists m', core = m' ++ [d]) ->
  is_space c = false -> is_space d = false ->
  strip (a ++ core ++ b) = core.
Proof.
  intros Ha Hb Hc (m' & Hd) Sc Sd. unfold strip.
  rewrite lstrip_blank_app by assumption.
  rewrite Hc. simpl app. rewrite lstrip_head by assumption.
  change (c :: mid ++ b) with ((c :: mid) ++ b). rewrite <- Hc.
  rewrite rstrip_app_blank by assumption.
  rewrite Hd. now apply rstrip_last.
Qed.

End PyStrFacts.

(** ** Facts about the matcher: which inputs a pattern accepts *)

Module RegexFacts.
Import PyStr Regex Wyoming Spec PyStrFacts.

Lemma is_some_true {A} (o : option A) : is_some o = true <-> exists r, o = Some r.
Proof.
  destruct o; simpl; split; intros H; try discriminate; eauto.
  destruct H as [r H]; discriminate.
Qed.

Section Acceptance.
Variable fl : flags.
Variable a : atom.
Variable k : cont.

Let ok (c : char) : bool := atom_matches fl a c.

Lemma one_accepts (s : pystr) (pos : nat) :
  is_some (one fl a k s pos) = true <->
  exists c v, s = c :: v /\ ok c = true /\ is_some (k v (S pos)) = true.
Proof.
  unfold one, ok. destruct s as [|c s]; simpl.
  - split; [discriminate|]. intros (c & v & H & _). discriminate.
  - destruct (atom_matches fl a c) eqn:E.
    + split; [intros H; now exists c, s|].
      intros (c' & v & H & _ & Hk). now injection H as -> ->.
    + split; [discriminate|].
      intros (c' & v & H & Hc & _). injection H as -> ->. congruence.
Qed.

(** A greedy star gives back as much as needed: it accepts whenever some
    split works. *)
Lemma greedy_accepts (s : pystr) (pos : nat) :
  is_some (greedy fl a k s pos) = true <->
  exists u v, s = u ++ v /\ forallb ok u = true /\
              is_some (k v (pos + length u)) = true.
Proof.
  revert pos. induction s as [|c s IH]; intros pos; simpl.
  - split.
    + intros H. exists [], []. simpl. now rewrite Nat.add_0_r.
    + intros (u & v & H & _ & Hk). symmetry in H.
      apply app_eq_nil in H as [-> ->]. simpl in Hk. now rewrite Nat.add_0_r in Hk.
  - fold (ok c). destruct (ok c) eqn:E.
    + destruct (greedy fl a k s (S pos)) as [r|] eqn:G.
      * split; [intros _|reflexivity].
        assert (Hs : is_some (greedy fl a k s (S pos)) = true) by now rewrite G.
        apply IH in Hs as (u & v & -> & Hu & Hk).
        exists (c :: u), v. simpl. rewrite E, Hu.
        now rewrite Nat.add_succ_r.
      * split.
        -- intros H. exists [], (c :: s). simpl. now rewrite Nat.add_0_r.
        -- intros (u & v & H & Hu & Hk). destruct u as [|d u].
           ++ simpl in H, Hk. subst v. now rewrite Nat.add_0_r in Hk.
           ++ simpl in H. injection H as -> ->. simpl in Hu.
              apply andb_true_iff in Hu as [_ Hu].
              assert (Hs : is_some (greedy fl a k (u ++ v) (S pos)) = true).
              { apply IH. exists u, v. simpl in Hk.
                now rewrite Nat.add_succ_r in Hk. }
              rewrite G in Hs. discriminate.
    + split.
      * intros H. exists [], (c :: s). simpl. now rewrite Nat.add_0_r.
      * intros (u & v & H & Hu & Hk). destruct u as [|d u].
        -- simpl in H, Hk. subst v. now rewrite Nat.add_0_r in Hk.
        -- simpl in H. injection H as -> ->. simpl in Hu. rewrite E in Hu.
           discriminate.
Qed.

(** A lazy star extends as far as needed: it accepts the same inputs. *)
Lemma lazy_accepts (s : pystr) (pos : nat) :
  is_some (lazy fl a k s pos) = true <->
  exists u v, s = u ++ v /\ forallb ok u = true /\
              is_some (k v (pos + length u)) = true.
Proof.
  revert pos. induction s as [|c s IH]; intros pos; simpl.
  - destruct (k [] pos) as [r|] eqn:K.
    + split; [intros _|reflexivity]. exists [], []. simpl.
      now rewrite Nat.add_0_r, K.
    + split; [discriminate|]. intros (u & v & H & _ & Hk). symmetry in H.
      apply app_eq_nil in H as [-> ->]. simpl in Hk.
      rewrite Nat.add_0_r, K in Hk. discriminate.
  - destruct (k (c :: s) pos) as [r|] eqn:K.
    + split; [intros _|reflexivity]. exists [], (c :: s). simpl.
      now rewrite Nat.add_0_r, K.
    + fold (ok c). destruct (ok c) eqn:E.
      * rewrite IH. split.
        -- intros (u & v & -> & Hu & Hk). exists (c :: u), v. simpl.
           rewrite E, Hu. now rewrite Nat.add_succ_r.
        -- intros (u & v & H & Hu & Hk). destruct u as [|d u].
           ++ simpl in H, Hk. subst v. rewrite Nat.add_0_r, K in Hk. discriminate.
           ++ simpl in H. injection H as -> ->. simpl in Hu.
              apply andb_true_iff in Hu as [_ Hu]. exists u, v.
              simpl in Hk. now rewrite Nat.add_succ_r in Hk.
      * split; [discriminate|].
        intros (u & v & H & Hu & Hk). destruct u as [|d u].
        -- simpl in H, Hk. subst v. rewrite Nat.add_0_r, K in Hk. discriminate.
        -- simpl in H. injection H as -> ->. simpl in Hu. rewrite E in Hu.
           discriminate.
Qed.
End Acceptance.

Lemma times_accepts (fl : flags) (a : atom) (n : nat) (k : cont) (s : pystr) (pos : nat) :
  is_some (times fl a n k s pos) = true <->
  exists u v, s = u ++ v /\ length u = n /\ forallb (atom_matches fl a) u = true /\
              is_some (k v (pos + n)) = true.
Proof.
  revert s pos. induction n as [|n IH]; intros s pos; simpl.
  - split.
    + intros H. exists [], s. now rewrite Nat.add_0_r.
    + intros (u & v & -> & Hu & _ & Hk). apply length_zero_iff_nil in Hu. subst u.
      now rewrite Nat.add_0_r in Hk.
  - rewrite one_accepts. split.
    + intros (c & v & -> & Hc & Hk). apply IH in Hk as (u & w & -> & Hu & Hf & Hk).
      exists (c :: u), w. simpl. rewrite Hc, Hf, Hu.
      now rewrite Nat.add_succ_r.
    + intros (u & v & -> & Hu & Hf & Hk). destruct u as [|c u]; [discriminate|].
      simpl in Hu, Hf. injection Hu as Hu. apply andb_true_iff in Hf as [Hc Hf].
      exists c, (u ++ v). split; [reflexivity|]. split; [assumption|].
      apply IH. exists u, v. now rewrite Nat.add_succ_r in Hk.
Qed.

(** A search accepts when the pattern accepts some suffix. *)
Lemma search_accepts (fl : flags) (pat : list item) (s : pystr) (pos : nat) :
  is_some (search_from fl pat s pos) = true <->
  exists u v, s = u ++ v /\
              is_some (exec fl pat (None, None) v (pos + length u)) = true.
Proof.
  revert pos. induction s as [|c s IH]; intros pos; simpl.
  - destruct (exec fl pat (None, None) [] pos) eqn:E.
    + split; [intros _|reflexivity]. exists [], []. simpl.
      now rewrite Nat.add_0_r, E.
    + split; [discriminate|]. intros (u & v & H & Hk). symmetry in H.
      apply app_eq_nil in H as [-> ->]. simpl in Hk.
      rewrite Nat.add_0_r, E in Hk. discriminate.
  - destruct (exec fl pat (None, None) (c :: s) pos) eqn:E.
    + split; [intros _|reflexivity]. exists [], (c :: s). simpl.
      now rewrite Nat.add_0_r, E.
    + rewrite IH. split.
      * intros (u & v & -> & Hk). exists (c :: u), v. simpl.
        now rewrite Nat.add_succ_r.
      * intros (u & v & H & Hk). destruct u as [|d u].
        -- simpl in H, Hk. subst v. rewrite Nat.add_0_r, E in Hk. discriminate.
        -- simpl in H. injection H as -> ->. exists u, v. simpl in Hk.
           now rewrite Nat.add_succ_r in Hk.
Qed.

(** The same splits, with the match they lead to. *)
Section Results.
Variable fl : flags.
Variable a : atom.
Variable k : cont.

Let ok (c : char) : bool := atom_matches fl a c.

Lemma one_result (s : pystr) (pos : nat) (r : result) :
  one fl a k s pos = Some r ->
  exists c v, s = c :: v /\ ok c = true /\ k v (S pos) = Some r.
Proof.
  unfold one, ok. destruct s as [|c s]; [discriminate|].
  destruct (atom_matches fl a c) eqn:E; [|discriminate].
  intros H. now exists c, s.
Qed.

Lemma greedy_result (s : pystr) (pos : nat) (r : result) :
  greedy fl a k s pos = Some r ->
  exists u v, s = u ++ v /\ forallb ok u = true /\ k v (pos + length u) = Some r.
Proof.
  revert pos. induction s as [|c s IH]; intros pos; cbn [greedy].
  - intros H. exists [], []. cbn [length]. now rewrite Nat.add_0_r.
  - fold (ok c). destruct (ok c) eqn:E.
    + destruct (greedy fl a k s (S pos)) as [r'|] eqn:G.
      * intros H. injection H as <-.
        destruct (IH _ G) as (u & v & -> & Hu & Hk).
        exists (c :: u), v. cbn [forallb length app]. rewrite E, Hu.
        now rewrite Nat.add_succ_r.
      * intros H. exists [], (c :: s). cbn [length]. now rewrite Nat.add_0_r.
    + intros H. exists [], (c :: s). cbn [length]. now rewrite Nat.add_0_r.
Qed.

Lemma lazy_result (s : pystr) (pos : nat) (r : result) :
  lazy fl a k s pos = Some r ->
  exists u v, s = u ++ v /\ forallb ok u = true /\ k v (pos + length u) = Some r.
Proof.
  revert pos. induction s as [|c s IH]; intros pos; cbn [lazy].
  - destruct (k [] pos) as [r'|] eqn:K; [|discriminate].
    intros H. injection H as <-. exists [], []. cbn [length].
    now rewrite Nat.add_0_r.
  - destruct (k (c :: s) pos) as [r'|] eqn:K.
    + intros H. injection H as <-. exists [], (c :: s). cbn [length].
      now rewrite Nat.add_0_r.
    + fold (ok c). destruct (ok c) eqn:E; [|discriminate].
      intros H. destruct (IH _ H) as (u & v & -> & Hu & Hk).
      exists (c :: u), v. cbn [forallb length app]. rewrite E, Hu.
      now rewrite Nat.add_succ_r.
Qed.
End Results.

Lemma search_result (fl : flags) (pat : list item) (s : pystr) (pos : nat) (r : result) :
  search_from fl pat s pos = Some r ->
  exists u v, s = u ++ v /\ exec fl pat (None, None) v (pos + length u) = Some r.
Proof.
  revert pos. induction s as [|c s IH]; intros pos; cbn [search_from].
  - destruct (exec fl pat (None, None) [] pos) as [r'|] eqn:E; [|discriminate].
    intros H. injection H as <-. exists [], []. cbn [length].
    now rewrite Nat.add_0_r.
  - destruct (exec fl pat (None, None) (c :: s) pos) as [r'|] eqn:E.
    + intros H. injection H as <-. exists [], (c :: s). cbn [length].
      now rewrite Nat.add_0_r.
    + intros H. apply IH in H as (u & v & -> & H).
      exists (c :: u), v. cbn [length app]. now rewrite Nat.add_succ_r.
Qed.

(** A lazy star and a search stop at the first split that works. *)
Section First.
Variable fl : flags.
Variable a : atom.
Variable k : cont.

Lemma lazy_first (s : pystr) (pos : nat) (r : result) :
  lazy fl a k s pos = Some r ->
  exists u v, s = u ++ v /\ k v (pos + length u) = Some r /\
    forall u' v', s = u' ++ v' -> length u' < length u ->
                  k v' (pos + length u') = None.
Proof.
  revert pos. induction s as [|c s IH]; intros pos; cbn [lazy].
  - destruct (k [] pos) as [r'|] eqn:K; [|discriminate].
    intros H. injection H as <-. exists [], []. cbn [length].
    rewrite Nat.add_0_r. repeat split; auto. intros u' v' _ Hl. lia.
  - destruct (k (c :: s) pos) as [r'|] eqn:K.
    + intros H. injection H as <-. exists [], (c :: s). cbn [length].
      rewrite Nat.add_0_r. repeat split; auto. intros u' v' _ Hl. lia.
    + destruct (atom_matches fl a c); [|discriminate].
      intros H. destruct (IH _ H) as (u & v & -> & Hk & Hmin).
      exists (c :: u), v. cbn [length app]. rewrite Nat.add_succ_r.
      repeat split; auto. intros u' v' Hs Hl. destruct u' as [|d u'].
      * cbn [app] in Hs. subst v'. cbn [length]. now rewrite Nat.add_0_r.
      * cbn [app] in Hs. injection Hs as <- Hs. cbn [length] in *.
        rewrite Nat.add_succ_r. apply Hmin; [assumption|lia].
Qed.
End First.

Lemma search_first (fl : flags) (pat : list item) (s : pystr) (pos : nat) (r : result) :
  search_from fl pat s pos = Some r ->
  exists u v, s = u ++ v /\ exec fl pat (None, None) v (pos + length u) = Some r /\
    forall u' v', s = u' ++ v' -> length u' < length u ->
                  exec fl pat (None, None) v' (pos + length u') = None.
Proof.
  revert pos. induction s as [|c s IH]; intros pos; cbn [search_from].
  - destruct (exec fl pat (None, None) [] pos) as [r'|] eqn:E; [|discriminate].
    intros H. injection H as <-. exists [], []. cbn [length].
    rewrite Nat.add_0_r. repeat split; auto. intros u' v' _ Hl. lia.
  - destruct (exec fl pat (None, None) (c :: s) pos) as [r'|] eqn:E.
    + intros H. injection H as <-. exists [], (c :: s). cbn [length].
      rewrite Nat.add_0_r. repeat split; auto. intros u' v' _ Hl. lia.
    + intros H. apply IH in H as (u & v & -> & H & Hmin).
      exists (c :: u), v. cbn [length app]. rewrite Nat.add_succ_r.
      repeat split; auto. intros u' v' Hs Hl. destruct u' as [|d u'].
      * cbn [app] in Hs. subst v'. cbn [length]. now rewrite Nat.add_0_r.
      * cbn [app] in Hs. injection Hs as <- Hs. cbn [length] in *.
        rewrite Nat.add_succ_r. apply Hmin; [assumption|lia].
Qed.

End RegexFacts.

(** ** The two patterns of the module *)

Module PatternFacts.
Import PyStr Regex Wyoming Spec PyStrFacts RegexFacts.

Lemma lit_run (x : char) (u : pystr) :
  forallb (atom_matches re_flags_none (ALit x)) u = true -> u = repeat x (length u).
Proof.
  induction u as [|c u IH]; simpl; intros H; [reflexivity|].
  apply andb_true_iff in H as [Hc Hu]. rewrite orb_false_r in Hc.
  apply chr_eqb_eq in Hc. subst c. f_equal. auto.
Qed.

Lemma run_lit (x : char) (n : nat) :
  forallb (atom_matches re_flags_none (ALit x)) (repeat x n) = true.
Proof.
  induction n as [|n IH]; simpl; [reflexivity|].
  now rewrite chr_eqb_refl, IH.
Qed.

Lemma at_eol_blank (v : pystr) : at_eol v = true -> blank v = true.
Proof.
  destruct v as [|c [|d v]]; simpl; try discriminate; [reflexivity|].
  intros H. apply chr_eqb_eq in H. now subst c.
Qed.

Lemma is_separator_iff (ln : pystr) : is_separator ln = true <-> Separator ln.
Proof.
  unfold is_separator, re_match, SEP_RE. split.
  - intros H. cbn [exec Nat.eqb] in H.
    apply greedy_accepts in H as (u1 & v1 & -> & H1 & H).
    apply times_accepts in H as (u2 & v2 & -> & L2 & H2 & H).
    apply greedy_accepts in H as (u3 & v3 & -> & H3 & H).
    apply greedy_accepts in H as (u4 & v4 & -> & H4 & H).
    cbn [exec] in H. destruct (at_eol v4) eqn:E; [|discriminate].
    exists u1, (5 + length u3), (u4 ++ v4).
    split; [|split; [|split]].
    + rewrite repeat_app. apply lit_run in H2, H3. rewrite L2 in H2.
      unfold DASH. rewrite <- H2, <- H3. now rewrite <- !app_assoc.
    + exact H1.
    + rewrite blank_app. apply at_eol_blank in E. now rewrite E, andb_true_r.
    + lia.
  - intros (a & n & b & -> & Ha & Hb & Hn). cbn [exec Nat.eqb].
    apply greedy_accepts. exists a, (repeat DASH n ++ b).
    split; [reflexivity|]. split; [exact Ha|].
    apply times_accepts. exists (repeat DASH 5), (repeat DASH (n - 5) ++ b).
    split. { rewrite app_assoc, <- repeat_app. do 2 f_equal. lia. }
    split; [apply repeat_length|]. split; [apply run_lit|].
    apply greedy_accepts. exists (repeat DASH (n - 5)), b.
    split; [reflexivity|]. split; [apply run_lit|].
    apply greedy_accepts. exists b, []. split; [now rewrite app_nil_r|].
    split; [exact Hb|]. reflexivity.
Qed.

Lemma repeat_snoc {A} (x : A) (n : nat) : repeat x (S n) = repeat x n ++ [x].
Proof. induction n as [|n IH]; simpl; [reflexivity|]. now rewrite <- IH. Qed.

Lemma dash_run (u : pystr) :
  forallb (chr_eqb DASH) u = true -> u = repeat DASH (length u).
Proof.
  induction u as [|c u IH]; cbn [forallb length repeat]; intros H; [reflexivity|].
  apply andb_true_iff in H as [Hc Hu]. apply chr_eqb_eq in Hc. subst c.
  f_equal. auto.
Qed.

Lemma run_dash (n : nat) : forallb (chr_eqb DASH) (repeat DASH n) = true.
Proof.
  induction n as [|n IH]; cbn [forallb repeat]; [reflexivity|].
  now rewrite chr_eqb_refl.
Qed.

Lemma strip_dashes (a b : pystr) (n : nat) :
  blank a = true -> blank b = true -> 1 <= n ->
  strip (a ++ repeat DASH n ++ b) = repeat DASH n.
Proof.
  intros Ha Hb Hn. destruct n as [|n]; [lia|].
  apply strip_core with (c := DASH) (d := DASH) (mid := repeat DASH n); auto.
  exists (repeat DASH n). apply repeat_snoc.
Qed.

Lemma separator_iff (ln : pystr) : separator ln = true <-> Separator ln.
Proof.
  unfold separator. split.
  - intros H. apply andb_true_iff in H as [Hn Hd].
    apply Nat.leb_le in Hn. apply dash_run in Hd.
    destruct (strip_split ln) as (a & b & Hs & Ha & Hb).
    exists a, (length (strip ln)), b. rewrite <- Hd. auto.
  - intros (a & n & b & -> & Ha & Hb & Hn).
    rewrite strip_dashes by (auto; lia).
    rewrite repeat_length, run_dash.
    apply andb_true_iff. split; [now apply Nat.leb_le|reflexivity].
Qed.

Lemma is_separator_spec (ln : pystr) : is_separator ln = separator ln.
Proof.
  destruct (is_separator ln) eqn:E1, (separator ln) eqn:E2; try reflexivity.
  - apply is_separator_iff, separator_iff in E1. congruence.
  - apply separator_iff, is_separator_iff in E2. congruence.
Qed.

Lemma lit_matches_ci (x c : char) :
  atom_matches re_flags_pre (ALit x) c = true <-> same_char x c.
Proof.
  unfold same_char. simpl. rewrite orb_true_iff, !chr_eqb_eq. tauto.
Qed.

Lemma lits_accept (fl : flags) (xs : list char) (p : list item) (g : span)
      (s : pystr) (pos : nat) :
  is_some (exec fl (lits xs ++ p) g s pos) = true <->
  exists u v, s = u ++ v /\
              Forall2 (fun x c => atom_matches fl (ALit x) c = true) xs u /\
              is_some (exec fl p g v (pos + length xs)) = true.
Proof.
  revert s pos. induction xs as [|x xs IH]; intros s pos.
  - simpl. split.
    + intros H. exists [], s. rewrite Nat.add_0_r. auto.
    + intros (u & v & -> & Hu & Hk). inversion Hu; subst. simpl.
      now rewrite Nat.add_0_r in Hk.
  - cbn [lits map app exec]. rewrite one_accepts. split.
    + intros (c & v & -> & Hc & Hk). apply IH in Hk as (u & w & -> & Hu & Hk).
      exists (c :: u), w. split; [reflexivity|]. split; [now constructor|].
      simpl. now rewrite Nat.add_succ_r.
    + intros (u & v & -> & Hu & Hk). inversion Hu as [|? c ? u' Hc Hu']; subst.
      exists c, (u' ++ v). split; [reflexivity|]. split; [assumption|].
      apply IH. exists u', v. simpl in Hk. now rewrite Nat.add_succ_r in Hk.
Qed.

Lemma ci_equal_matches (xs u : pystr) :
  Forall2 (fun x c => atom_matches re_flags_pre (ALit x) c = true) xs u <->
  ci_equal xs u.
Proof.
  unfold ci_equal. split; intros H; induction H; constructor; auto;
    now apply lit_matches_ci.
Qed.

Lemma not_gt_run (u : pystr) :
  forallb (atom_matches re_flags_pre (ANotIn [ch ">"])) u = true <->
  Forall (fun c => c <> ch ">") u.
Proof.
  induction u as [|c u IH]; cbn [forallb atom_matches existsb].
  - split; auto.
  - rewrite andb_true_iff, IH, orb_false_r, negb_true_iff. split.
    + intros [Hc Hu]. constructor; [|assumption]. intros ->.
      now rewrite chr_eqb_refl in Hc.
    + intros H. inversion H as [|? ? Hc Hu]; subst. split; [|assumption].
      destruct (chr_eqb c (ch ">")) eqn:E; [|reflexivity].
      apply chr_eqb_eq in E. contradiction.
Qed.

Lemma any_run (u : pystr) : forallb (atom_matches re_flags_pre AAny) u = true.
Proof. induction u; simpl; auto. Qed.

Lemma PRE_RE_shape :
  PRE_RE = lits (lit "<pre") ++
           Star (ANotIn [ch ">"]) :: One (ALit (ch ">")) ::
           GroupOpen :: LazyStar AAny :: GroupClose :: lits (lit "</pre>") ++ [].
Proof. reflexivity. Qed.

Lemma pre_accepts (g : span) (s : pystr) (pos : nat) :
  is_some (exec re_flags_pre PRE_RE g s pos) = true <-> OpensAt s.
Proof.
  unfold OpensAt.
  rewrite PRE_RE_shape. rewrite lits_accept. split.
  - intros (tag & v & -> & Ht & H). cbn [exec] in H.
    apply greedy_accepts in H as (attrs & v1 & -> & Ha & H).
    apply one_accepts in H as (c & v2 & -> & Hc & H).
    apply lazy_accepts in H as (inner & v3 & -> & _ & H).
    apply lits_accept in H as (close & rest & -> & Hcl & _).
    exists tag, attrs, inner, close, rest.
    simpl in Hc. rewrite orb_true_iff, !chr_eqb_eq in Hc.
    assert (c = ch ">") as -> by (destruct Hc as [Hc|Hc]; exact Hc).
    split; [reflexivity|]. split; [now apply ci_equal_matches|].
    split; [now apply not_gt_run|]. now apply ci_equal_matches.
  - intros (tag & attrs & inner & close & rest & -> & Ht & Ha & Hc).
    exists tag, (attrs ++ [ch ">"] ++ inner ++ close ++ rest).
    split; [reflexivity|]. split; [now apply ci_equal_matches|].
    cbn [exec]. apply greedy_accepts.
    exists attrs, ([ch ">"] ++ inner ++ close ++ rest).
    split; [reflexivity|]. split; [now apply not_gt_run|].
    apply one_accepts. exists (ch ">"), (inner ++ close ++ rest).
    split; [reflexivity|]. split; [reflexivity|].
    apply lazy_accepts. exists inner, (close ++ rest).
    split; [reflexivity|]. split; [apply any_run|].
    apply lits_accept. exists close, rest.
    split; [reflexivity|]. split; [now apply ci_equal_matches|]. reflexivity.
Qed.

Lemma pre_search_iff (body : pystr) :
  is_some (re_search re_flags_pre PRE_RE body) = true <-> HasPreBlock body.
Proof.
  unfold re_search, HasPreBlock. rewrite search_accepts. cbn [Nat.add].
  split; intros (u & v & -> & H); exists u, v; (split; [reflexivity|]);
    now apply (pre_accepts (None, None) v (length u)).
Qed.

Lemma lits_result (fl : flags) (xs : list char) (p : list item) (g : span)
      (s : pystr) (pos : nat) (r : result) :
  exec fl (lits xs ++ p) g s pos = Some r ->
  exists u v, s = u ++ v /\
              Forall2 (fun x c => atom_matches fl (ALit x) c = true) xs u /\
              exec fl p g v (pos + length xs) = Some r.
Proof.
  revert s pos. induction xs as [|x xs IH]; intros s pos.
  - cbn [lits map app length]. intros H. exists [], s. rewrite Nat.add_0_r. auto.
  - cbn [lits map app exec length]. intros H.
    apply one_result in H as (c & v & -> & Hc & H).
    apply IH in H as (u & w & -> & Hu & H).
    exists (c :: u), w. split; [reflexivity|]. split; [now constructor|].
    now rewrite Nat.add_succ_r.
Qed.

(** Where the group of the block pattern lies. *)
Lemma pre_result (g : span) (s : pystr) (pos : nat) (r : result) :
  exec re_flags_pre PRE_RE g s pos = Some r ->
  exists tag attrs inner close rest,
    s = tag ++ attrs ++ [ch ">"] ++ inner ++ close ++ rest /\
    ci_equal (lit "<pre") tag /\
    Forall (fun c => c <> ch ">") attrs /\
    ci_equal (lit "</pre>") close /\
    snd r = (Some (pos + length tag + length attrs + 1),
             Some (pos + length tag + length attrs + 1 + length inner)).
Proof.
  rewrite PRE_RE_shape. intros H.
  apply lits_result in H as (tag & v & -> & Ht & H). cbn [exec] in H.
  apply greedy_result in H as (attrs & v1 & -> & Ha & H).
  apply one_result in H as (c & v2 & -> & Hc & H).
  cbn [exec fst snd] in H.
  apply lazy_result in H as (inner & v3 & -> & _ & H).
  cbn [exec fst snd] in H.
  apply lits_result in H as (close & rest & -> & Hcl & H).
  cbn [exec] in H. injection H as <-.
  exists tag, attrs, inner, close, rest.
  simpl in Hc. rewrite orb_true_iff, !chr_eqb_eq in Hc.
  assert (c = ch ">") as -> by (destruct Hc as [Hc|Hc]; exact Hc).
  apply ci_equal_matches in Ht, Hcl.
  assert (Lt : length tag = length (lit "<pre")) by (symmetry; eapply Forall2_length; exact Ht).
  split; [reflexivity|]. split; [assumption|].
  split; [now apply not_gt_run|]. split; [assumption|].
  cbn [snd]. rewrite Lt. change (length (lit "<pre")) with 4. do 2 f_equal; lia.
Qed.

Lemma slice_middle {A} (x y z : list A) (b e : nat) :
  b = length x -> e = b + length y -> firstn (e - b) (skipn b (x ++ y ++ z)) = y.
Proof.
  intros -> ->. rewrite skipn_app, skipn_all, Nat.sub_diag. cbn [skipn app].
  replace (length x + length y - length x) with (length y) by lia.
  rewrite firstn_app, Nat.sub_diag, firstn_all. cbn [firstn].
  now rewrite app_nil_r.
Qed.

Lemma not_some_none {A} (o : option A) : o = None -> is_some o <> true.
Proof. intros ->. discriminate. Qed.

Lemma closes_accept (g : span) (s : pystr) (pos : nat) :
  is_some (exec re_flags_pre (lits (lit "</pre>") ++ []) g s pos) = true
  <-> ClosesAt s.
Proof.
  rewrite lits_accept. unfold ClosesAt. split.
  - intros (u & v & -> & Hu & _). exists u, v. split; [reflexivity|].
    now apply ci_equal_matches.
  - intros (u & v & -> & Hu). exists u, v. split; [reflexivity|].
    split; [now apply ci_equal_matches|reflexivity].
Qed.

(** The group of the block pattern stops at the first closing tag. *)
Lemma pre_lazy (g : span) (s : pystr) (pos : nat) (r : result) :
  exec re_flags_pre PRE_RE g s pos = Some r ->
  exists tag attrs inner close rest,
    s = tag ++ attrs ++ [ch ">"] ++ inner ++ close ++ rest /\
    ci_equal (lit "<pre") tag /\
    Forall (fun c => c <> ch ">") attrs /\
    ci_equal (lit "</pre>") close /\
    snd r = (Some (pos + length tag + length attrs + 1),
             Some (pos + length tag + length attrs + 1 + length inner)) /\
    (forall p1 p2, inner = p1 ++ p2 -> p2 <> [] -> ~ ClosesAt (p2 ++ close ++ rest)).
Proof.
  rewrite PRE_RE_shape. intros H.
  apply lits_result in H as (tag & v & -> & Ht & H). cbn [exec] in H.
  apply greedy_result in H as (attrs & v1 & -> & Ha & H).
  apply one_result in H as (c & v2 & -> & Hc & H).
  cbn [exec fst snd] in H.
  apply lazy_first in H as (inner & v3 & -> & H & Hmin).
  pose proof H as H'. cbn [exec fst snd] in H'.
  apply lits_result in H' as (close & rest & -> & Hcl & H').
  cbn [exec] in H'. injection H' as <-.
  exists tag, attrs, inner, close, rest.
  simpl in Hc. rewrite orb_true_iff, !chr_eqb_eq in Hc.
  assert (c = ch ">") as -> by (destruct Hc as [Hc|Hc]; exact Hc).
  apply ci_equal_matches in Ht, Hcl.
  assert (Lt : length tag = length (lit "<pre"))
    by (symmetry; eapply Forall2_length; exact Ht).
  split; [reflexivity|]. split; [assumption|].
  split; [now apply not_gt_run|]. split; [assumption|]. split.
  - cbn [snd]. rewrite Lt. change (length (lit "<pre")) with 4.
    do 2 f_equal; lia.
  - intros p1 p2 -> Hp2 Hcloses.
    specialize (Hmin p1 (p2 ++ close ++ rest)).
    rewrite <- app_assoc in Hmin. specialize (Hmin eq_refl).
    assert (Hl : length p1 < length (p1 ++ p2)).
    { rewrite length_app. destruct p2; [contradiction|cbn [length]; lia]. }
    specialize (Hmin Hl). apply not_some_none in Hmin. apply Hmin.
    now apply closes_accept.
Qed.

(** The first block is the inner text of the first pair of tags. *)
Lemma first_block_first_pair (body pre : pystr) :
  first_block body = Some pre -> FirstPair body pre.
Proof.
  unfold first_block, re_search.
  destruct (search_from re_flags_pre PRE_RE body 0) as [r|] eqn:S; [|discriminate].
  apply search_first in S as (before & v & -> & S & Hleft). cbn [Nat.add] in S, Hleft.
  apply pre_lazy in S
    as (tag & attrs & inner & close & rest & -> & Ht & Ha & Hc & Hg & Hlazy).
  remember (before ++ tag ++ attrs ++ [ch ">"] ++ inner ++ close ++ rest) as body eqn:Eb.
  unfold group1. rewrite Hg. intros H. injection H as <-.
  match goal with |- context [firstn ?n (skipn ?b body)] =>
    assert (E : firstn n (skipn b body) = inner)
  end.
  { replace body with ((before ++ tag ++ attrs ++ [ch ">"]) ++ inner ++ close ++ rest)
      by (rewrite Eb; now rewrite <- !app_assoc).
    apply slice_middle; [|reflexivity].
    rewrite !length_app. cbn [length]. lia. }
  rewrite E. exists before, tag, attrs, close, rest.
  split; [exact Eb|]. split; [assumption|]. split; [assumption|].
  split; [assumption|]. split; [|assumption].
  intros b1 b2 -> Hb2 Hopen.
  specialize (Hleft b1 (b2 ++ tag ++ attrs ++ [ch ">"] ++ inner ++ close ++ rest)).
  assert (Hs : body = b1 ++ b2 ++ tag ++ attrs ++ [ch ">"] ++ inner ++ close ++ rest)
    by (rewrite Eb; now rewrite <- app_assoc).
  specialize (Hleft Hs).
  assert (Hl : length b1 < length (b1 ++ b2)).
  { rewrite length_app. destruct b2; [contradiction|cbn [length]; lia]. }
  specialize (Hleft Hl). apply not_some_none in Hleft. apply Hleft.
  apply pre_accepts. exact Hopen.
Qed.

(** A match of the block pattern always fills its group. *)
Lemma group_filled (body : pystr) (m : result) :
  re_search re_flags_pre PRE_RE body = Some m ->
  exists pre, group1 body m = Some pre.
Proof.
  unfold re_search. intros S.
  apply search_result in S as (before & v & -> & S).
  apply pre_result in S as (tag & attrs & inner & close & rest & _ & _ & _ & _ & Hg).
  unfold group1. rewrite Hg. eauto.
Qed.

End PatternFacts.

(** ** The availability prober *)

Module ProberFacts.
Import PyStr Regex Wyoming Spec PyStrFacts RegexFacts PatternFacts.

Lemma startswith_iff (p s : pystr) :
  startswith p s = true <-> exists b, s = p ++ b.
Proof.
  revert s. induction p as [|x p IH]; intros s; cbn [startswith].
  - split; [intros _; now exists s|reflexivity].
  - destruct s as [|c s].
    + split; [discriminate|]. intros (b & H). discriminate.
    + rewrite andb_true_iff, chr_eqb_eq, IH. split.
      * intros (-> & b & ->). now exists b.
      * intros (b & H). injection H as -> ->. split; [reflexivity|now exists b].
Qed.

Lemma contains_iff (p s : pystr) : contains p s = true <-> Contains p s.
Proof.
  unfold Contains. induction s as [|c s IH]; cbn [contains].
  - rewrite orb_false_r, startswith_iff. split.
    + intros (b & ->). now exists [], b.
    + intros (a & b & H). symmetry in H. apply app_eq_nil in H as [-> H].
      exists b. now rewrite H.
  - rewrite orb_true_iff, startswith_iff, IH. split.
    + intros [(b & ->) | (a & b & ->)]; [now exists [], b|now exists (c :: a), b].
    + intros (a & b & H). destruct a as [|d a].
      * left. now exists b.
      * right. injection H as -> ->. now exists a, b.
Qed.

Lemma raise_for_status_iff (r : Response) :
  raise_for_status r = true <-> ErrorStatus r.
Proof.
  unfold raise_for_status, ErrorStatus.
  rewrite andb_true_iff, Z.leb_le, Z.ltb_lt. tauto.
Qed.

(** The body test of the prober is [LooksEmpty]. *)
Lemma looks_empty_iff (body : pystr) :
  looks_empty body = true <-> LooksEmpty body.
Proof.
  unfold looks_empty, LooksEmpty.
  rewrite !orb_true_iff, !contains_iff, Nat.ltb_lt. tauto.
Qed.

(** The prober by cases on what [requests.get] does. *)
Lemma probe_unfold (server : list Request -> Request -> get_result)
  (raises : Response -> bool) (url : pystr) (timeout : Z) (log : list Request) :
  sounding_exists server raises url timeout log =
  (match server log (the_request url timeout) with
   | RequestException => Return (false, None)
   | Escapes cls => Raise (Uncaught cls)
   | Returned r =>
       if raises r then Return (false, None)
       else Return (negb (looks_empty (text r)), Some r)
   end, log ++ [the_request url timeout]).
Proof.
  unfold sounding_exists, bind, requests_get, ret, the_request, looks_empty.
  destruct (server log _) as [|cls|r]; try reflexivity.
  destruct (raises r); [reflexivity|].
  destruct (contains (lit "Can't get") (text r)
            || contains (lit "No data available") (text r)); [reflexivity|].
  cbn [orb]. now destruct (length (strip (text r)) <? 200).
Qed.

Section Prober.
Variable server : list Request -> Request -> get_result.

Let failed := TransportFailed server.
Let delivered := Delivered server.

(** C3, as amended.  One call of the prober makes exactly one call of
    [requests.get], a GET to the URL with the timeout given, whatever the
    outcome.  When that call lets an exception escape that is not a
    [RequestException], the prober raises it and classifies nothing.  When
    the call raises a [RequestException] or the response has a status from
    400 to 599, the prober reports unavailable with no body.  Every other
    response, whatever its status, is returned with the verdict:
    unavailable exactly when the body holds one of the two "no data"
    phrases or is shorter than 200 characters once trimmed.  Hence, when
    the prober returns, it reports unavailable exactly when the transport
    failed or the delivered body looks empty. *)
Theorem sounding_exists_classifies (url : pystr) (timeout : Z) (log : list Request) :
  let rq := the_request url timeout in
  let out := sounding_exists server raise_for_status url timeout log in
  snd out = log ++ [rq] /\
  (forall cls, server log rq = Escapes cls <-> fst out = Raise (Uncaught cls)) /\
  (forall e, fst out = Raise e -> exists cls, e = Uncaught cls) /\
  (failed log rq -> fst out = Return (false, None)) /\
  (forall r, delivered log rq r ->
     exists b, fst out = Return (b, Some r) /\ (b = false <-> LooksEmpty (text r))) /\
  (forall b resp, fst out = Return (b, resp) ->
     (b = false <->
        failed log rq \/ exists r, delivered log rq r /\ LooksEmpty (text r))).
Proof.
  intros rq out. subst rq out. rewrite probe_unfold.
  set (rq := the_request url timeout).
  unfold failed, delivered, TransportFailed, Delivered.
  destruct (server log rq) as [|cls0|r] eqn:S; cbn [fst snd].
  - split; [reflexivity|]. split; [|split; [|split; [|split]]].
    + intros cls. split; discriminate.
    + intros e H. discriminate.
    + reflexivity.
    + intros r [H _]. discriminate.
    + intros b resp H. injection H as <- <-. split; auto.
  - split; [reflexivity|]. split; [|split; [|split; [|split]]].
    + intros cls. split; intros H; now injection H as <-.
    + intros e H. injection H as <-. now exists cls0.
    + intros [H|(r & H & _)]; discriminate.
    + intros r [H _]. discriminate.
    + intros b resp H. discriminate.
  - split; [reflexivity|].
    destruct (raise_for_status r) eqn:R; cbn [fst snd].
    + apply raise_for_status_iff in R. split; [|split; [|split; [|split]]].
      * intros cls. split; discriminate.
      * intros e H. discriminate.
      * reflexivity.
      * intros r' [H H']. injection H as <-. contradiction.
      * intros b resp H. injection H as <- <-. split; [intros _|reflexivity].
        left. right. now exists r.
    + assert (R' : ~ ErrorStatus r).
      { intros H. apply raise_for_status_iff in H. congruence. }
      assert (Hb : negb (looks_empty (text r)) = false <-> LooksEmpty (text r)).
      { rewrite negb_false_iff. apply looks_empty_iff. }
      split; [|split; [|split; [|split]]].
      * intros cls. split; discriminate.
      * intros e H. discriminate.
      * intros [H|(r' & H & H')]; [discriminate|]. injection H as <-. contradiction.
      * intros r' [H _]. injection H as <-. eexists. split; [reflexivity|exact Hb].
      * intros b resp H. injection H as <- _. split.
        -- intros H. right. exists r. tauto.
        -- intros [[H|(r' & H & H')]|(r' & [H _] & H')].
           ++ discriminate.
           ++ injection H as <-. contradiction.
           ++ injection H as <-. now apply Hb.
Qed.
End Prober.

End ProberFacts.

(** ** Header, units, data start, truncation and filtering *)

Module ParserFacts.
Import PyStr Regex Wyoming Spec PyStrFacts RegexFacts PatternFacts ProberFacts.

Lemma index_nonneg {A} (xs : list A) (i : Z) :
  (0 <= i)%Z -> index xs i = nth_error xs (Z.to_nat i).
Proof. intros H. unfold index. apply Z.leb_le in H. now rewrite H. Qed.

Lemma index_beyond {A} (xs : list A) (i : Z) :
  (Z.of_nat (length xs) <= i)%Z -> index xs i = None.
Proof.
  intros H. rewrite index_nonneg by lia. apply nth_error_None. lia.
Qed.

Lemma slice_from_nonneg {A} (xs : list A) (i : Z) :
  (0 <= i)%Z -> slice_from xs i = skipn (Z.to_nat i) xs.
Proof. intros H. unfold slice_from. apply Z.leb_le in H. now rewrite H. Qed.

Lemma has_stop_marker_iff (ln : pystr) :
  has_stop_marker ln = true <-> HasStopMarker ln.
Proof.
  unfold has_stop_marker, HasStopMarker, stop_markers. cbn [existsb].
  rewrite !orb_true_iff, !contains_iff. intuition discriminate.
Qed.

Lemma keep_survives (ln : pystr) : keep ln = survives ln.
Proof.
  unfold keep, survives. now rewrite truthy_strip, is_separator_spec.
Qed.

Lemma survives_iff (ln : pystr) :
  survives ln = true <-> blank ln = false /\ ~ Separator ln.
Proof.
  unfold survives. rewrite andb_true_iff, !negb_true_iff. split.
  - intros [Hb Hs]. split; [assumption|]. intros H.
    apply separator_iff in H. congruence.
  - intros [Hb Hs]. split; [assumption|].
    destruct (separator ln) eqn:E; [|reflexivity].
    apply separator_iff in E. contradiction.
Qed.

Lemma cut_from_some (i j : nat) (cands : list pystr) :
  cut_from i cands = Some j ->
  exists region stop rest,
    cands = region ++ stop :: rest /\ j = i + length region /\
    Forall (fun ln => ~ HasStopMarker ln) region /\ HasStopMarker stop.
Proof.
  revert i. induction cands as [|ln cands IH]; intros i; cbn [cut_from].
  - discriminate.
  - destruct (has_stop_marker ln) eqn:E.
    + intros H. injection H as <-. exists [], ln, cands. cbn [app length].
      split; [reflexivity|]. split; [lia|]. split; [constructor|].
      now apply has_stop_marker_iff.
    + intros H. apply IH in H as (region & stop & rest & -> & -> & Hr & Hs).
      exists (ln :: region), stop, rest. cbn [app length].
      split; [reflexivity|]. split; [lia|]. split; [|assumption].
      constructor; [|assumption]. intros H. apply has_stop_marker_iff in H. congruence.
Qed.

Lemma cut_from_none (i : nat) (cands : list pystr) :
  cut_from i cands = None -> Forall (fun ln => ~ HasStopMarker ln) cands.
Proof.
  revert i. induction cands as [|ln cands IH]; intros i; cbn [cut_from].
  - constructor.
  - destruct (has_stop_marker ln) eqn:E; [discriminate|].
    intros H. constructor; [|eauto]. intros H'.
    apply has_stop_marker_iff in H'. congruence.
Qed.

Lemma truncate_up_to_first_stop (candidates : list pystr) :
  UpToFirstStop candidates (truncate candidates).
Proof.
  unfold UpToFirstStop, truncate, cut, slice_to.
  destruct (cut_from 0 candidates) as [j|] eqn:E.
  - apply cut_from_some in E as (region & stop & rest & -> & -> & Hr & Hs).
    cbn [Nat.add]. rewrite firstn_app, Nat.sub_diag, firstn_all. cbn [firstn].
    rewrite app_nil_r. split; [assumption|]. right. now exists stop, rest.
  - apply cut_from_none in E. auto.
Qed.

(** C5.  The first line containing a stop marker (three hashes, the
    station-information phrase or the observations phrase) ends the
    candidate list, itself excluded along with everything after it; of the
    lines before it exactly those that are neither blank nor a separator of
    five or more dashes are kept, in order, as the data lines. *)
Theorem truncation_then_filtering (candidates : list pystr) :
  UpToFirstStop candidates (truncate candidates) /\
  filter keep (truncate candidates) = filter survives (truncate candidates) /\
  (forall ln, In ln (filter keep (truncate candidates)) <->
              In ln (truncate candidates) /\ blank ln = false /\ ~ Separator ln) /\
  (forall lines ds,
     slice_from lines ds = candidates ->
     data_lines lines ds = filter survives (truncate candidates) /\
     data_text lines ds = strip (join [LF] (filter survives (truncate candidates)))).
Proof.
  assert (E : filter keep (truncate candidates) = filter survives (truncate candidates)).
  { apply filter_ext. intros ln. apply keep_survives. }
  split; [apply truncate_up_to_first_stop|]. split; [exact E|]. split.
  - intros ln. rewrite filter_In, keep_survives, survives_iff. tauto.
  - intros lines ds <-. unfold data_text, data_lines. now rewrite E.
Qed.

(** C4, as amended.  In a block with more than [header_idx] lines the
    header line is the line at [header_idx], trimmed; the units line is the
    following line, trimmed as well, or the empty string when there is
    none; the data region starts at [header_idx + 2], moved one line further
    exactly when the line there is a separator. *)
Theorem header_units_data_start (lines : list pystr) (header_idx : Z) :
  (0 <= header_idx < Z.of_nat (length lines))%Z ->
  let n := Z.to_nat header_idx in
  header_line lines header_idx = Return (strip (nth n lines [])) /\
  units_line lines header_idx =
    Return (match nth_error lines (n + 1) with Some u => strip u | None => [] end) /\
  exists ds,
    data_start lines header_idx = Return ds /\
    (ds = header_idx + 2 \/ ds = header_idx + 3)%Z /\
    (ds = (header_idx + 3)%Z <->
     exists ln, nth_error lines (n + 2) = Some ln /\ Separator ln).
Proof.
  intros [H0 Hlen] n. split; [|split].
  - unfold header_line. rewrite index_nonneg by assumption. fold n.
    destruct (nth_error lines n) as [ln|] eqn:E.
    + cbn. now rewrite (nth_error_nth _ _ _ E).
    + apply nth_error_None in E. lia.
  - unfold units_line. rewrite index_nonneg by lia.
    replace (Z.to_nat (header_idx + 1)) with (n + 1) by lia.
    destruct (header_idx + 1 <? Z.of_nat (length lines))%Z eqn:L.
    + destruct (nth_error lines (n + 1)) as [u|] eqn:E; [reflexivity|].
      apply nth_error_None in E. apply Z.ltb_lt in L. lia.
    + apply Z.ltb_ge in L.
      destruct (nth_error lines (n + 1)) as [u|] eqn:E; [|reflexivity].
      assert (n + 1 < length lines) by (apply nth_error_Some; congruence). lia.
  - unfold data_start. rewrite index_nonneg by lia.
    replace (Z.to_nat (header_idx + 2)) with (n + 2) by lia.
    destruct (header_idx + 2 <? Z.of_nat (length lines))%Z eqn:L.
    + destruct (nth_error lines (n + 2)) as [ln|] eqn:E.
      * cbn [of_option obind]. destruct (is_separator ln) eqn:S.
        -- exists (header_idx + 2 + 1)%Z. split; [reflexivity|]. split; [lia|].
           split; [intros _|lia]. exists ln. split; [reflexivity|].
           now apply is_separator_iff.
        -- exists (header_idx + 2)%Z. split; [reflexivity|]. split; [lia|].
           split; [lia|]. intros (ln' & Hln & Hs). injection Hln as <-.
           apply is_separator_iff in Hs. congruence.
      * apply nth_error_None in E. apply Z.ltb_lt in L. lia.
    + exists (header_idx + 2)%Z. split; [reflexivity|]. split; [lia|].
      split; [lia|]. intros (ln & Hln & _). apply Z.ltb_ge in L.
      assert (n + 2 < length lines) by (apply nth_error_Some; congruence). lia.
Qed.

End ParserFacts.

(** ** Lines of a block and lines of the text handed to the reader *)

Module TextFacts.
Import PyStr Regex Wyoming Spec PyStrFacts RegexFacts PatternFacts ProberFacts ParserFacts.

Lemma Forall_firstn_of {A} (P : A -> Prop) (n : nat) (l : list A) :
  Forall P l -> Forall P (firstn n l).
Proof.
  intros H. rewrite <- (firstn_skipn n l) in H. now apply Forall_app in H.
Qed.

Lemma Forall_skipn_of {A} (P : A -> Prop) (n : nat) (l : list A) :
  Forall P l -> Forall P (skipn n l).
Proof.
  intros H. rewrite <- (firstn_skipn n l) in H. now apply Forall_app in H.
Qed.

Lemma Forall_filter_of {A} (P : A -> Prop) (f : A -> bool) (l : list A) :
  Forall P l -> Forall P (filter f l).
Proof.
  intros H. apply Forall_forall. intros x Hx. apply filter_In in Hx as [Hx _].
  revert x Hx. now apply Forall_forall.
Qed.

Lemma no_break_rev (s : pystr) : no_break (rev s) = no_break s.
Proof.
  unfold no_break. induction s as [|c s IH]; cbn [rev forallb]; [reflexivity|].
  rewrite forallb_app, IH. cbn [forallb]. rewrite andb_true_r. apply andb_comm.
Qed.

Lemma splitlines_from_no_break (n : nat) :
  forall acc s, length s <= n -> no_break acc = true ->
                Forall (fun ln => no_break ln = true) (splitlines_from acc s).
Proof.
  induction n as [|n IH]; intros acc s Hn Hacc.
  - destruct s; [|cbn in Hn; lia]. cbn [splitlines_from].
    destruct acc; constructor; [|constructor]. now rewrite no_break_rev.
  - destruct s as [|c s].
    + cbn [splitlines_from].
      destruct acc; constructor; [|constructor]. now rewrite no_break_rev.
    + cbn [length] in Hn. cbn [splitlines_from].
      destruct (is_linebreak c) eqn:E.
      * constructor; [now rewrite no_break_rev|].
        destruct s as [|d s]; [apply IH; [cbn; lia|reflexivity]|].
        cbn [length] in Hn.
        destruct (chr_eqb c CR && chr_eqb d LF);
          apply IH; cbn [length]; try lia; reflexivity.
      * apply IH; [lia|]. unfold no_break. cbn [forallb]. rewrite E. exact Hacc.
Qed.

Lemma splitlines_no_break (s : pystr) :
  Forall (fun ln => no_break ln = true) (splitlines s).
Proof. apply splitlines_from_no_break with (n := length s); auto. Qed.

Lemma no_break_no_lf (ln : pystr) : no_break ln = true -> no_lf ln = true.
Proof.
  unfold no_break, no_lf. induction ln as [|c ln IH]; cbn [forallb]; [reflexivity|].
  rewrite !andb_true_iff. intros [Hc Hl]. split; [|auto].
  destruct (chr_eqb c LF) eqn:E; [|reflexivity].
  apply chr_eqb_eq in E. subst c. discriminate.
Qed.

(** Lines of a text *)
Lemma pieces_from_line (acc x : pystr) :
  no_lf x = true -> pieces_from acc x = [rev acc ++ x].
Proof.
  revert acc. induction x as [|c x IH]; intros acc H; cbn [pieces_from].
  - now rewrite app_nil_r.
  - unfold no_lf in H. cbn [forallb] in H. apply andb_true_iff in H as [Hc Hx].
    apply negb_true_iff in Hc. rewrite Hc, IH by exact Hx.
    cbn [rev]. now rewrite <- app_assoc.
Qed.

Lemma pieces_from_break (acc x rest : pystr) :
  no_lf x = true ->
  pieces_from acc (x ++ LF :: rest) = (rev acc ++ x) :: pieces_from [] rest.
Proof.
  revert acc. induction x as [|c x IH]; intros acc H; cbn [pieces_from app].
  - rewrite chr_eqb_refl. now rewrite app_nil_r.
  - unfold no_lf in H. cbn [forallb] in H. apply andb_true_iff in H as [Hc Hx].
    apply negb_true_iff in Hc. rewrite Hc, IH by exact Hx.
    cbn [rev]. now rewrite <- app_assoc.
Qed.

Lemma text_lines_join (x : pystr) (xs : list pystr) :
  Forall (fun ln => no_lf ln = true) (x :: xs) ->
  text_lines (join [LF] (x :: xs)) = x :: xs.
Proof.
  revert x. induction xs as [|y xs IH]; intros x H; inversion H as [|? ? Hx Hxs]; subst.
  - cbn [join]. unfold text_lines. now rewrite pieces_from_line.
  - change (join [LF] (x :: y :: xs)) with (x ++ LF :: join [LF] (y :: xs)).
    unfold text_lines. rewrite pieces_from_break by exact Hx. cbn [rev app].
    f_equal. now apply IH.
Qed.

(** Trimming a joined text touches only its first and last line *)
Lemma join_cons (sep x : pystr) (rest : list pystr) :
  exists t, forall x, join sep (x :: rest) = x ++ t.
Proof.
  destruct rest as [|y rest].
  - exists []. intros x0. cbn [join]. now rewrite app_nil_r.
  - exists (sep ++ join sep (y :: rest)). reflexivity.
Qed.

Lemma join_snoc (sep : pystr) (init : list pystr) :
  exists p, forall z, join sep (init ++ [z]) = p ++ z.
Proof.
  induction init as [|y init (p & IH)].
  - exists []. reflexivity.
  - exists (y ++ sep ++ p). intros z. cbn [app].
    destruct (init ++ [z]) as [|w l] eqn:E.
    + destruct init; discriminate.
    + change (join sep (y :: w :: l)) with (y ++ sep ++ join sep (w :: l)).
      rewrite <- E, IH. now rewrite <- !app_assoc.
Qed.

Lemma lstrip_app_solid (x t : pystr) :
  blank x = false -> lstrip (x ++ t) = lstrip x ++ t.
Proof.
  induction x as [|c x IH]; cbn [blank forallb app lstrip]; [discriminate|].
  destruct (is_space c); [exact IH|reflexivity].
Qed.

Lemma rstrip_app_solid (p z : pystr) :
  blank z = false -> rstrip (p ++ z) = p ++ rstrip z.
Proof.
  intros H. unfold rstrip. rewrite rev_app_distr, lstrip_app_solid.
  - now rewrite rev_app_distr, rev_involutive.
  - now rewrite blank_rev.
Qed.

Lemma no_lf_app (a b : pystr) : no_lf (a ++ b) = no_lf a && no_lf b.
Proof. apply forallb_app. Qed.

Lemma solid_lstrip (x : pystr) : solid x -> solid (lstrip x).
Proof.
  intros [Hb Hl]. destruct (lstrip_split x) as (a & Hx & Ha & _).
  rewrite Hx, blank_app, Ha in Hb. rewrite Hx, no_lf_app in Hl.
  apply andb_true_iff in Hl as [_ Hl]. now split.
Qed.

Lemma solid_rstrip (x : pystr) : solid x -> solid (rstrip x).
Proof.
  intros [Hb Hl]. destruct (rstrip_split x) as (b & Hx & Hbb & _).
  rewrite Hx, blank_app, Hbb, andb_true_r in Hb. rewrite Hx, no_lf_app in Hl.
  apply andb_true_iff in Hl as [Hl _]. now split.
Qed.

Lemma strip_join (xs : list pystr) :
  xs <> [] -> Forall solid xs ->
  exists zs, length zs = length xs /\ Forall solid zs /\ zs <> [] /\
             strip (join [LF] xs) = join [LF] zs.
Proof.
  intros Hne Hs. destruct xs as [|x rest]; [contradiction|].
  inversion Hs as [|? ? Hx Hrest]; subst.
  destruct (join_cons [LF] x rest) as (t & Ht).
  assert (Hl : lstrip (join [LF] (x :: rest)) = join [LF] (lstrip x :: rest)).
  { rewrite !Ht. apply lstrip_app_solid. apply Hx. }
  assert (Hys : Forall solid (lstrip x :: rest)).
  { constructor; [now apply solid_lstrip|assumption]. }
  destruct (@exists_last _ (lstrip x :: rest)) as (init & z & Hz); [discriminate|].
  destruct (join_snoc [LF] init) as (p & Hp).
  exists (init ++ [rstrip z]).
  rewrite Hz in Hys. apply Forall_app in Hys as [Hinit Hzs].
  inversion Hzs as [|? ? Hzsolid _]; subst.
  split; [|split; [|split]].
  - assert (E : length (lstrip x :: rest) = length (init ++ [z])) by now rewrite Hz.
    rewrite !length_app in *. cbn [length] in *. lia.
  - apply Forall_app. split; [assumption|]. constructor; [|constructor].
    now apply solid_rstrip.
  - destruct init; discriminate.
  - unfold strip. rewrite Hl, Hz, !Hp. apply rstrip_app_solid. apply Hzsolid.
Qed.

(** The text handed to the reader has one non-blank line per data line. *)
Lemma reader_text_lines (xs : list pystr) :
  Forall solid xs ->
  length (filter (fun ln => negb (blank ln)) (text_lines (strip (join [LF] xs))))
  = length xs.
Proof.
  intros Hs. destruct xs as [|x rest] eqn:E; [reflexivity|]. rewrite <- E in *.
  destruct (@strip_join xs) as (zs & Hlen & Hzs & Hne & ->); [congruence|assumption|].
  destruct zs as [|z zs]; [contradiction|].
  rewrite text_lines_join.
  - rewrite <- Hlen. f_equal. apply forallb_filter_id. apply forallb_forall.
    intros ln Hin. rewrite Forall_forall in Hzs. apply Hzs in Hin as [Hb _].
    now rewrite Hb.
  - eapply Forall_impl; [|exact Hzs]. intros ln [_ Hl]. exact Hl.
Qed.

End TextFacts.

(** ** The whole call *)

Module PipelineFacts.
Import PyStr Regex Wyoming Spec PyStrFacts RegexFacts PatternFacts ProberFacts ParserFacts TextFacts.

Lemma index_some_range {A} (xs : list A) (i : Z) :
  index xs i <> None <-> (- Z.of_nat (length xs) <= i < Z.of_nat (length xs))%Z.
Proof.
  unfold index. destruct (0 <=? i)%Z eqn:E0.
  - apply Z.leb_le in E0. rewrite nth_error_Some. lia.
  - apply Z.leb_gt in E0. destruct (- Z.of_nat (length xs) <=? i)%Z eqn:E1.
    + apply Z.leb_le in E1. rewrite nth_error_Some. lia.
    + apply Z.leb_gt in E1. split; [congruence|lia].
Qed.

Lemma index_some_of_range {A} (xs : list A) (i : Z) :
  (- Z.of_nat (length xs) <= i < Z.of_nat (length xs))%Z -> exists x, index xs i = Some x.
Proof.
  intros H. apply index_some_range in H. destruct (index xs i) as [x|]; [eauto|congruence].
Qed.

(** Once the header line is there, neither the units line nor the data
    start can fail. *)
Lemma units_line_returns (lines : list pystr) (i : Z) :
  index lines i <> None -> exists u, units_line lines i = Return u.
Proof.
  intros H. apply index_some_range in H. unfold units_line.
  destruct (i + 1 <? Z.of_nat (length lines))%Z eqn:L; [|eauto].
  apply Z.ltb_lt in L.
  destruct (@index_some_of_range _ lines (i + 1)) as [x Hx]; [lia|].
  rewrite Hx. cbn. eauto.
Qed.

Lemma data_start_returns (lines : list pystr) (i : Z) :
  index lines i <> None ->
  exists ds, data_start lines i = Return ds /\ (i + 2 <= ds <= i + 3)%Z.
Proof.
  intros H. apply index_some_range in H. unfold data_start.
  destruct (i + 2 <? Z.of_nat (length lines))%Z eqn:L.
  - apply Z.ltb_lt in L.
    destruct (@index_some_of_range _ lines (i + 2)) as [x Hx]; [lia|].
    rewrite Hx. cbn. destruct (is_separator x); eexists; split; try reflexivity; lia.
  - eexists; split; [reflexivity|lia].
Qed.

Lemma units_line_value (lines : list pystr) (i : Z) :
  (0 <= i < Z.of_nat (length lines))%Z ->
  units_line lines i =
    Return (match nth_error lines (Z.to_nat i + 1) with Some u => strip u | None => [] end).
Proof.
  intros [H0 Hlen]. unfold units_line. rewrite index_nonneg by lia.
  replace (Z.to_nat (i + 1)) with (Z.to_nat i + 1) by lia.
  destruct (i + 1 <? Z.of_nat (length lines))%Z eqn:L.
  - destruct (nth_error lines (Z.to_nat i + 1)) as [u|] eqn:E; [reflexivity|].
    apply nth_error_None in E. apply Z.ltb_lt in L. lia.
  - apply Z.ltb_ge in L.
    destruct (nth_error lines (Z.to_nat i + 1)) as [u|] eqn:E; [|reflexivity].
    assert (Z.to_nat i + 1 < length lines) by (apply nth_error_Some; congruence). lia.
Qed.

Lemma blank_data_text (lines : list pystr) (ds : Z) :
  negb (truthy (data_text lines ds)) = blank (join [LF] (data_lines lines ds)).
Proof. unfold data_text. now rewrite truthy_strip, negb_involutive. Qed.

Lemma dict_get_set (key v : pystr) (d : list (pystr * pystr)) :
  dict_get key (dict_set key v d) = Some v.
Proof.
  induction d as [|[k0 v0] d IH]; cbn [dict_set dict_get].
  - now rewrite str_eqb_refl.
  - destruct (str_eqb k0 key) eqn:E; cbn [dict_get]; now rewrite E.
Qed.

Section Pipeline.
Variable server : list Request -> Request -> get_result.
Variable raises_for_status : Response -> bool.
Variable Cell : Type.
Variable read_fwf : pystr -> list pystr -> option (DataFrame Cell).

Let probe := sounding_exists server raises_for_status.
Let parse := extract_and_parse read_fwf.
Let get := get_wyoming_sounding server raises_for_status read_fwf.

Lemma probe_available_has_body (url : pystr) (timeout : Z) (log : list Request)
      (resp : option Response) :
  fst (probe url timeout log) = Return (true, resp) -> exists r, resp = Some r.
Proof.
  unfold probe. rewrite probe_unfold. cbn [fst].
  destruct (server log _) as [|cls|r]; try discriminate.
  destruct (raises_for_status r); [discriminate|].
  intros H. injection H as _ <-. now exists r.
Qed.

(** The prober raises nothing but what escaped [requests.get]. *)
Lemma probe_raises_uncaught (url : pystr) (timeout : Z) (log : list Request)
      (e : exn) :
  fst (probe url timeout log) = Raise e -> exists cls, e = Uncaught cls.
Proof.
  unfold probe. rewrite probe_unfold. cbn [fst].
  destruct (server log _) as [|cls|r]; try discriminate.
  - intros H. injection H as <-. now exists cls.
  - destruct (raises_for_status r); discriminate.
Qed.

Lemma get_unfold (year month day hour station : Z) (region : pystr)
      (header_idx : Z) (log : list Request) :
  fst (get year month day hour station region header_idx log) =
  match fst (probe (build_url year month day hour station region) DEFAULT_TIMEOUT log) with
  | Raise e => Raise e
  | Return (false, _) => Raise (ValueError MSG_UNAVAILABLE)
  | Return (true, None) => Raise AttributeError
  | Return (true, Some r) => parse r header_idx
  end.
Proof.
  unfold get, get_wyoming_sounding, bind, probe, parse, ret.
  destruct (sounding_exists _ _ _ _ _) as [[[[|] [r|]]|e] log']; reflexivity.
Qed.

(** The whole call makes the one call of the prober. *)
Lemma get_issues_one_request (year month day hour station : Z) (region : pystr)
      (header_idx : Z) (log : list Request) :
  snd (get year month day hour station region header_idx log) =
  log ++ [the_request (build_url year month day hour station region) DEFAULT_TIMEOUT].
Proof.
  unfold get, get_wyoming_sounding, bind. rewrite probe_unfold.
  destruct (server log _) as [|cls|r]; cbn [fst snd ret]; try reflexivity.
  destruct (raises_for_status r); [reflexivity|].
  now destruct (negb (looks_empty (text r))).
Qed.

(** The stages of [extract_and_parse], one at a time. *)
Lemma parse_no_block (r : Response) (header_idx : Z) :
  re_search re_flags_pre PRE_RE (text r) = None ->
  parse r header_idx = Raise (ValueError MSG_NO_PRE).
Proof. intros H. unfold parse, extract_and_parse. now rewrite H. Qed.

Lemma parse_block (r : Response) (header_idx : Z) (m : result) :
  re_search re_flags_pre PRE_RE (text r) = Some m ->
  parse r header_idx =
  match first_block (text r) with
  | None => Raise AttributeError
  | Some pre =>
      let lines := splitlines pre in
      match index lines header_idx with
      | None => Raise IndexError
      | Some hl =>
          u <-- units_line lines header_idx ;;
          ds <-- data_start lines header_idx ;;
          if blank (join [LF] (data_lines lines ds))
          then Raise (ValueError MSG_NO_ROWS)
          else
            df <-- of_option (read_fwf (data_text lines ds) (split (strip hl)))
                   ReaderError ;;
            Return (set_attr (lit "units") u df)
      end
  end.
Proof.
  intros H. unfold parse, extract_and_parse, first_block. rewrite H.
  destruct (group1 (text r) m) as [pre|]; [|reflexivity].
  cbn [of_option obind]. unfold header_line.
  destruct (index (splitlines pre) header_idx) as [hl|]; [|reflexivity].
  cbn [of_option obind].
  destruct (units_line (splitlines pre) header_idx) as [u|e]; [|reflexivity].
  cbn [obind].
  destruct (data_start (splitlines pre) header_idx) as [ds|e]; [|reflexivity].
  cbn [obind]. now rewrite blank_data_text.
Qed.

(** What a returned frame tells about the stages that produced it. *)
Lemma parse_return (r : Response) (header_idx : Z) (df : DataFrame Cell) :
  parse r header_idx = Return df ->
  exists pre hl u ds df0,
    first_block (text r) = Some pre /\
    index (splitlines pre) header_idx = Some hl /\
    units_line (splitlines pre) header_idx = Return u /\
    data_start (splitlines pre) header_idx = Return ds /\
    blank (join [LF] (data_lines (splitlines pre) ds)) = false /\
    read_fwf (data_text (splitlines pre) ds) (split (strip hl)) = Some df0 /\
    df = set_attr (lit "units") u df0.
Proof.
  intros H. destruct (re_search re_flags_pre PRE_RE (text r)) as [m|] eqn:S.
  - rewrite (@parse_block r header_idx m S) in H.
    destruct (first_block (text r)) as [pre|] eqn:Eb; [|discriminate].
    cbv zeta in H.
    destruct (index (splitlines pre) header_idx) as [hl|] eqn:Eh; [|discriminate].
    destruct (units_line (splitlines pre) header_idx) as [u|e] eqn:Eu; [|discriminate].
    destruct (data_start (splitlines pre) header_idx) as [ds|e] eqn:Ed; [|discriminate].
    cbn [obind] in H.
    destruct (blank (join [LF] (data_lines (splitlines pre) ds))) eqn:B;
      [discriminate|].
    destruct (read_fwf _ _) as [df0|] eqn:R; [|discriminate].
    cbn [of_option obind] in H. injection H as <-.
    exists pre, hl, u, ds, df0. auto 10.
  - rewrite (@parse_no_block r header_idx S) in H. discriminate.
Qed.

Lemma first_block_has_pre (body pre : pystr) :
  first_block body = Some pre -> HasPreBlock body.
Proof.
  unfold first_block. intros H. apply pre_search_iff.
  destruct (re_search re_flags_pre PRE_RE body); [reflexivity|discriminate].
Qed.

Lemma search_none_no_pre (body : pystr) :
  re_search re_flags_pre PRE_RE body = None <-> ~ HasPreBlock body.
Proof.
  rewrite <- pre_search_iff.
  destruct (re_search re_flags_pre PRE_RE body); cbn [is_some];
    split; intros H; try congruence; try discriminate.
Qed.

Lemma parse_ending (r : Response) (header_idx : Z) :
  ending r header_idx (parse r header_idx).
Proof.
  destruct (re_search re_flags_pre PRE_RE (text r)) as [m|] eqn:S.
  - rewrite (@parse_block r header_idx m S).
    assert (Hp : HasPreBlock (text r)) by (apply pre_search_iff; now rewrite S).
    destruct (first_block (text r)) as [pre|] eqn:Eb.
    2:{ destruct (@group_filled _ _ S) as [pre Hpre]. unfold first_block in Eb.
        rewrite S in Eb. congruence. }
    cbv zeta.
    destruct (index (splitlines pre) header_idx) as [hl|] eqn:Eh;
      [|now apply EndNoHeader with pre].
    assert (Hi : index (splitlines pre) header_idx <> None) by congruence.
    destruct (@units_line_returns _ _ Hi) as [u ->].
    destruct (@data_start_returns _ _ Hi) as (ds & Hd & _). rewrite Hd.
    cbn [obind].
    destruct (blank (join [LF] (data_lines (splitlines pre) ds))) eqn:B;
      [now apply EndNoRows with pre ds|].
    destruct (read_fwf _ _) as [df0|]; cbn [of_option obind].
    + now apply EndTable with pre ds.
    + now apply EndReader with pre ds.
  - rewrite (@parse_no_block r header_idx S). apply EndNoBlock.
    now apply search_none_no_pre.
Qed.

Ltac clash :=
  match goal with
  | H : Raise _ = Raise _ |- _ =>
      solve [discriminate H | injection H as H; vm_compute in H; discriminate H]
  | H : Return _ = Raise _ |- _ => discriminate H
  | H : Raise _ = Return _ |- _ => discriminate H
  | H : ?x = Some _, H' : ?x = None |- _ => congruence
  | H : ?x <> None, H' : ?x = None |- _ => congruence
  | H : HasPreBlock ?b, H' : ~ HasPreBlock ?b |- _ => contradiction
  end.

(** C2, as amended.  The descriptive errors and their conditions, in
    order.  The call raises "Sounding not available" exactly when the
    prober reports unavailable, whatever the body holds, and an exception
    that escaped the prober is passed on as it is; "No <pre> block found"
    exactly when the body is available and holds no opening tag followed
    by a closing tag; "No data rows found" exactly when the block is
    there, the header line exists, and the data lines joined after
    truncation and filtering are blank.  A frame is returned only from
    non-blank data text.  The block that is parsed is the inner text of
    the first pair of tags taken lazily: no pair opens further left, and
    the text stops at the first closing tag. *)
Theorem failures_in_order
        (year month day hour station : Z) (region : pystr) (header_idx : Z)
        (log : list Request) :
  let url := build_url year month day hour station region in
  let probed := fst (probe url DEFAULT_TIMEOUT log) in
  let res := fst (get year month day hour station region header_idx log) in
  (res = Raise (ValueError MSG_UNAVAILABLE) <->
     exists resp, probed = Return (false, resp)) /\
  (forall cls, res = Raise (Uncaught cls) <-> probed = Raise (Uncaught cls)) /\
  (res = Raise (ValueError MSG_NO_PRE) <->
     exists r, probed = Return (true, Some r) /\ ~ HasPreBlock (text r)) /\
  (res = Raise (ValueError MSG_NO_ROWS) <->
     exists r pre ds,
       probed = Return (true, Some r) /\ first_block (text r) = Some pre /\
       index (splitlines pre) header_idx <> None /\
       data_start (splitlines pre) header_idx = Return ds /\
       blank (join [LF] (data_lines (splitlines pre) ds)) = true) /\
  (forall df, res = Return df ->
     exists r pre ds,
       probed = Return (true, Some r) /\ first_block (text r) = Some pre /\
       data_start (splitlines pre) header_idx = Return ds /\
       blank (join [LF] (data_lines (splitlines pre) ds)) = false) /\
  (forall r pre, first_block (text r) = Some pre -> FirstPair (text r) pre).
Proof.
  intros url probed res.
  cut ((res = Raise (ValueError MSG_UNAVAILABLE) <->
          exists resp, probed = Return (false, resp)) /\
       (forall cls, res = Raise (Uncaught cls) <-> probed = Raise (Uncaught cls)) /\
       (res = Raise (ValueError MSG_NO_PRE) <->
          exists r, probed = Return (true, Some r) /\ ~ HasPreBlock (text r)) /\
       (res = Raise (ValueError MSG_NO_ROWS) <->
          exists r pre ds,
            probed = Return (true, Some r) /\ first_block (text r) = Some pre /\
            index (splitlines pre) header_idx <> None /\
            data_start (splitlines pre) header_idx = Return ds /\
            blank (join [LF] (data_lines (splitlines pre) ds)) = true) /\
       (forall df, res = Return df ->
          exists r pre ds,
            probed = Return (true, Some r) /\ first_block (text r) = Some pre /\
            data_start (splitlines pre) header_idx = Return ds /\
            blank (join [LF] (data_lines (splitlines pre) ds)) = false)).
  { intros (H1 & H2 & H3 & H4 & H5).
    split; [exact H1|]. split; [exact H2|]. split; [exact H3|].
    split; [exact H4|]. split; [exact H5|].
    intros r pre. apply first_block_first_pair. }
  revert url probed res.
  intros url probed res. subst res. rewrite get_unfold. fold url. fold probed.
  destruct probed as [[[|] resp]|e] eqn:P.
  - assert (Hr : exists r, resp = Some r).
    { apply (@probe_available_has_body url DEFAULT_TIMEOUT log). exact P. }
    destruct Hr as [r ->].
    pose proof (parse_ending r header_idx) as E.
    split; [|split; [|split; [|split]]].
    + split; [|intros (resp & H); discriminate].
      intros H. rewrite H in E. inversion E.
    + intros cls. split; [|discriminate]. intros H. rewrite H in E. inversion E.
    + split.
      * intros H. exists r. split; [reflexivity|]. rewrite H in E.
        inversion E; try clash. assumption.
      * intros (r' & Hr' & Hn). injection Hr' as <-.
        inversion E; try clash; try reflexivity;
          match goal with
          | Hb : first_block _ = Some _ |- _ => apply first_block_has_pre in Hb; clash
          end.
    + split.
      * intros H. rewrite H in E. inversion E; try clash.
        exists r, pre, ds. auto.
      * intros (r' & pre & ds & Hr' & Hb & Hi & Hd & Hbl). injection Hr' as <-.
        inversion E; try reflexivity; try congruence.
        apply first_block_has_pre in Hb. clash.
    + intros df H. rewrite H in E. inversion E. exists r, pre, ds. auto.
  - split; [|split; [|split; [|split]]].
    + split; [intros _; now exists resp|reflexivity].
    + intros cls. split; [intros H; clash|discriminate].
    + split; [intros H; clash|]. intros (r & Hr & _). discriminate.
    + split; [intros H; clash|]. intros (r & pre & ds & Hr & _). discriminate.
    + intros df H. discriminate.
  - destruct (@probe_raises_uncaught url DEFAULT_TIMEOUT log e P) as [cls0 ->].
    split; [|split; [|split; [|split]]].
    + split; [discriminate|]. intros (resp & H). discriminate.
    + intros cls. split; intros H; injection H as <-; reflexivity.
    + split; [discriminate|]. intros (r & Hr & _). discriminate.
    + split; [discriminate|]. intros (r & pre & ds & Hr & _). discriminate.
    + intros df H. discriminate.
Qed.

(** C10.  An available response whose first block has [header_idx] lines or
    fewer makes the call raise [IndexError], not one of the three
    descriptive errors. *)
Theorem header_access_unguarded
        (year month day hour station : Z) (region : pystr) (header_idx : Z)
        (log : list Request) (r : Response) (pre : pystr) :
  fst (probe (build_url year month day hour station region) DEFAULT_TIMEOUT log)
    = Return (true, Some r) ->
  first_block (text r) = Some pre ->
  (Z.of_nat (length (splitlines pre)) <= header_idx)%Z ->
  fst (get year month day hour station region header_idx log) = Raise IndexError.
Proof.
  intros Hp Hb Hl. rewrite get_unfold, Hp.
  destruct (re_search re_flags_pre PRE_RE (text r)) as [m|] eqn:S.
  - rewrite (@parse_block r header_idx m S), Hb. cbv zeta.
    now rewrite index_beyond.
  - unfold first_block in Hb. rewrite S in Hb. discriminate.
Qed.

(** C7, as amended.  On success the [units] entry of the frame's attributes
    is the line following the header line with leading and trailing
    whitespace removed, or the empty string when there is no such line. *)
Theorem units_attribute_is_trimmed_line
        (r : Response) (header_idx : Z) (df : DataFrame Cell) :
  (0 <= header_idx)%Z ->
  parse r header_idx = Return df ->
  exists pre,
    first_block (text r) = Some pre /\
    dict_get (lit "units") (df_attrs df) =
      Some (match nth_error (splitlines pre) (Z.to_nat header_idx + 1) with
            | Some ln => strip ln
            | None => []
            end).
Proof.
  intros H0 H. apply parse_return in H
    as (pre & hl & u & ds & df0 & Hb & Hh & Hu & _ & _ & _ & ->).
  exists pre. split; [assumption|].
  assert (Hr : (0 <= header_idx < Z.of_nat (length (splitlines pre)))%Z).
  { assert (Hi : index (splitlines pre) header_idx <> None) by congruence.
    apply index_some_range in Hi. lia. }
  pose proof (@units_line_value (splitlines pre) header_idx Hr) as Hu'.
  cbn [set_attr df_attrs]. rewrite dict_get_set.
  rewrite Hu in Hu'. now injection Hu' as ->.
Qed.

(** The steps after the probe read nothing of the response but its text. *)
Lemma parse_depends_on_body_only (r1 r2 : Response) (header_idx : Z) :
  text r1 = text r2 -> parse r1 header_idx = parse r2 header_idx.
Proof. intros H. unfold parse, extract_and_parse. now rewrite H. Qed.
End Pipeline.

End PipelineFacts.

(** ** The request URL *)

Module UrlFacts.
Import PyStr Regex Wyoming Spec PyStrFacts PipelineFacts.

Lemma years_checked : forallb year_ok (seq (Z.to_nat 1000) (Z.to_nat 9000)) = true.
Proof. vm_compute. reflexivity. Qed.

Lemma twos_checked : forallb two_ok (seq 0 (Z.to_nat 100)) = true.
Proof. vm_compute. reflexivity. Qed.

Lemma four_digit_year (year : Z) :
  (1000 <= year <= 9999)%Z ->
  digits 4 (str_of_int year) /\ decimal_value (str_of_int year) = year.
Proof.
  intros H. pose proof years_checked as C. rewrite forallb_forall in C.
  specialize (C (Z.to_nat year)). rewrite in_seq in C.
  assert (E : year_ok (Z.to_nat year) = true) by (apply C; lia).
  unfold year_ok in E. rewrite Z2Nat.id in E by lia.
  apply andb_true_iff in E as [E Ev]. apply andb_true_iff in E as [El Ed].
  apply Nat.eqb_eq in El. apply Z.eqb_eq in Ev. now repeat split.
Qed.

Lemma two_digit_field (n : Z) :
  (0 <= n <= 99)%Z ->
  digits 2 (format_02d n) /\ decimal_value (format_02d n) = n.
Proof.
  intros H. pose proof twos_checked as C. rewrite forallb_forall in C.
  specialize (C (Z.to_nat n)). rewrite in_seq in C.
  assert (E : two_ok (Z.to_nat n) = true) by (apply C; lia).
  unfold two_ok in E. rewrite Z2Nat.id in E by lia.
  apply andb_true_iff in E as [E Ev]. apply andb_true_iff in E as [El Ed].
  apply Nat.eqb_eq in El. apply Z.eqb_eq in Ev. now repeat split.
Qed.

Lemma build_url_template (year month day hour station : Z) (region : pystr) :
  build_url year month day hour station region =
  url_template region (str_of_int year) (format_02d month)
               (format_02d day ++ format_02d hour) (str_of_int station).
Proof.
  unfold build_url, url_template.
  change (lit "https://weather.uwyo.edu/cgi-bin/sounding?region=")
    with (lit "https://weather.uwyo.edu/cgi-bin/sounding?" ++ lit "region=").
  now rewrite <- !app_assoc.
Qed.

Section Request.
Variable server : list Request -> Request -> get_result.
Variable raises_for_status : Response -> bool.
Variable Cell : Type.
Variable read_fwf : pystr -> list pystr -> option (DataFrame Cell).

(** C8, as amended.  The call issues one GET to the URL it builds: the fixed
    endpoint followed by the region, the literal TEXT%3ALIST, the year in
    plain decimal, the month, the day+hour token (twice, as FROM and TO) and
    the station in plain decimal.  The year has four digits when it lies in
    1000..9999; month, day and hour get a leading zero when they lie in
    0..9 and are plain decimal otherwise, so they have exactly two digits
    when they lie in 0..99, and a negative value gets no zero. *)
Theorem request_url_shape
        (year month day hour station : Z) (region : pystr) (header_idx : Z)
        (log : list Request) :
  let url := build_url year month day hour station region in
  snd (get_wyoming_sounding server raises_for_status read_fwf
         year month day hour station region header_idx log)
    = log ++ [{| req_method := GET; req_url := url; req_timeout := 30 |}] /\
  url = url_template region (str_of_int year) (format_02d month)
                     (format_02d day ++ format_02d hour) (str_of_int station) /\
  ((1000 <= year <= 9999)%Z ->
     digits 4 (str_of_int year) /\ decimal_value (str_of_int year) = year) /\
  (forall n, (0 <= n <= 99)%Z ->
     digits 2 (format_02d n) /\ decimal_value (format_02d n) = n) /\
  (forall n, (0 <= n < 10)%Z -> format_02d n = ch "0" :: str_of_int n) /\
  (forall n, (n < 0 \/ 10 <= n)%Z -> format_02d n = str_of_int n).
Proof.
  intros url. split; [apply get_issues_one_request|].
  split; [apply build_url_template|]. split; [apply four_digit_year|].
  split; [apply two_digit_field|]. split.
  - intros n [H0 H1]. unfold format_02d.
    apply Z.leb_le in H0. apply Z.ltb_lt in H1. now rewrite H0, H1.
  - intros n H. unfold format_02d.
    destruct (0 <=? n)%Z eqn:E0; [|reflexivity].
    destruct (n <? 10)%Z eqn:E1; [|reflexivity].
    apply Z.leb_le in E0. apply Z.ltb_lt in E1. lia.
Qed.
End Request.

End UrlFacts.

(** ** The returned table *)

Module TableFacts.
Import PyStr Regex Wyoming Spec PyStrFacts RegexFacts PatternFacts ProberFacts ParserFacts TextFacts PipelineFacts.

Lemma data_lines_solid (pre : pystr) (ds : Z) :
  Forall solid (data_lines (splitlines pre) ds).
Proof.
  unfold data_lines. apply Forall_forall. intros ln Hin.
  apply filter_In in Hin as [Hin Hk]. split.
  - rewrite keep_survives in Hk. now apply survives_iff in Hk.
  - apply no_break_no_lf.
    assert (H : Forall (fun ln => no_break ln = true)
                       (truncate (slice_from (splitlines pre) ds))).
    { unfold truncate, slice_to, slice_from.
      destruct (cut _); [apply Forall_firstn_of|];
        destruct (0 <=? ds)%Z; apply Forall_skipn_of; apply splitlines_no_break. }
    rewrite Forall_forall in H. now apply H.
Qed.

(** The text handed to the reader, line by line. *)
Lemma reader_lines (pre : pystr) (ds : Z) :
  blank (join [LF] (data_lines (splitlines pre) ds)) = false ->
  length (text_lines (data_text (splitlines pre) ds))
    = length (data_lines (splitlines pre) ds) /\
  Forall (fun ln => blank ln = false) (text_lines (data_text (splitlines pre) ds)).
Proof.
  intros Hbl.
  assert (Hne : data_lines (splitlines pre) ds <> []).
  { intros E. rewrite E in Hbl. discriminate. }
  destruct (@strip_join _ Hne (data_lines_solid pre ds)) as (zs & Hlen & Hzs & Hz & E).
  unfold data_text. rewrite E. destruct zs as [|z zs]; [contradiction|].
  rewrite text_lines_join.
  - split; [exact Hlen|]. eapply Forall_impl; [|exact Hzs]. now intros ln [Hb _].
  - eapply Forall_impl; [|exact Hzs]. now intros ln [_ Hl].
Qed.

Section Rows.
Variable Cell : Type.
Variable read_fwf : pystr -> list pystr -> option (DataFrame Cell).

(** C1, as amended.  On a successful parse the text handed to the reader
    has exactly one line per surviving data line, none of them blank: the
    lines that are neither blank nor separators among the lines of the
    block from the detected data start up to the first stop-marker line, or
    up to the end of the block when there is none.  The rows of the
    returned frame are those the reader made of that text; hence, with a
    reader that yields one row per non-blank line of its text, the frame
    has as many rows as there are surviving lines. *)
Theorem one_row_per_surviving_line
        (r : Response) (header_idx : Z) (df : DataFrame Cell) :
  extract_and_parse read_fwf r header_idx = Return df ->
  exists pre ds region names df0,
    first_block (text r) = Some pre /\
    data_start (splitlines pre) header_idx = Return ds /\
    UpToFirstStop (slice_from (splitlines pre) ds) region /\
    length (text_lines (data_text (splitlines pre) ds))
      = length (filter survives region) /\
    Forall (fun ln => blank ln = false) (text_lines (data_text (splitlines pre) ds)) /\
    read_fwf (data_text (splitlines pre) ds) names = Some df0 /\
    df_rows df = df_rows df0 /\
    (one_row_per_line read_fwf ->
       length (df_rows df) = length (filter survives region)).
Proof.
  intros H. apply parse_return in H
    as (pre & hl & u & ds & df0 & Hb & Hh & _ & Hd & Hbl & Hr & ->).
  exists pre, ds, (truncate (slice_from (splitlines pre) ds)), (split (strip hl)), df0.
  assert (Hk : length (data_lines (splitlines pre) ds)
               = length (filter survives (truncate (slice_from (splitlines pre) ds)))).
  { unfold data_lines. f_equal. apply filter_ext. intros ln. apply keep_survives. }
  destruct (@reader_lines pre ds Hbl) as [Hlen Hnb].
  split; [assumption|]. split; [assumption|].
  split; [apply truncate_up_to_first_stop|].
  split; [now rewrite Hlen|]. split; [assumption|]. split; [assumption|].
  split; [reflexivity|].
  intros Hreader. cbn [set_attr df_rows]. rewrite (Hreader _ _ _ Hr), <- Hk.
  unfold data_text. apply reader_text_lines. apply data_lines_solid.
Qed.
End Rows.

Section TwoRuns.
Variable server1 server2 : list Request -> Request -> get_result.
Variable raises1 raises2 : Response -> bool.
Variable Cell : Type.
Variable read_fwf : pystr -> list pystr -> option (DataFrame Cell).

(** C9.  Two runs, whatever their requests, servers and logs, that receive
    available responses with the same body and use the same header index
    end in the same outcome: the same frame, with the same rows, column
    names and units, or the same error. *)
Theorem same_body_same_table
        (year1 month1 day1 hour1 station1 : Z) (region1 : pystr)
        (year2 month2 day2 hour2 station2 : Z) (region2 : pystr)
        (header_idx : Z) (log1 log2 : list Request) (r1 r2 : Response) :
  fst (sounding_exists server1 raises1
         (build_url year1 month1 day1 hour1 station1 region1) DEFAULT_TIMEOUT log1)
    = Return (true, Some r1) ->
  fst (sounding_exists server2 raises2
         (build_url year2 month2 day2 hour2 station2 region2) DEFAULT_TIMEOUT log2)
    = Return (true, Some r2) ->
  text r1 = text r2 ->
  fst (get_wyoming_sounding server1 raises1 read_fwf
         year1 month1 day1 hour1 station1 region1 header_idx log1)
  = fst (get_wyoming_sounding server2 raises2 read_fwf
           year2 month2 day2 hour2 station2 region2 header_idx log2).
Proof.
  intros H1 H2 Ht. rewrite !get_unfold, H1, H2.
  now apply parse_depends_on_body_only.
Qed.
End TwoRuns.

End TableFacts.

(** ** The statements at sample inputs *)

Module Examples.
Import PyStr Regex Wyoming Spec Sample.
Import PyStrFacts RegexFacts PatternFacts ProberFacts ParserFacts TextFacts PipelineFacts.
Import UrlFacts TableFacts.

Lemma line_reader_one_row_per_line : one_row_per_line line_reader.
Proof.
  intros t names df H. unfold line_reader in H. injection H as <-.
  cbn [df_rows]. apply length_map.
Qed.

Lemma page_parses :
  extract_and_parse line_reader (response_of 200 page) 2 = Return page_frame.
Proof. vm_compute. reflexivity. Qed.

Lemma one_row_per_surviving_line_witness :
  extract_and_parse line_reader (response_of 200 page) 2 = Return page_frame /\
  exists pre ds region names df0,
    first_block (text (response_of 200 page)) = Some pre /\
    data_start (splitlines pre) 2 = Return ds /\
    UpToFirstStop (slice_from (splitlines pre) ds) region /\
    length (text_lines (data_text (splitlines pre) ds))
      = length (filter survives region) /\
    Forall (fun ln => blank ln = false) (text_lines (data_text (splitlines pre) ds)) /\
    line_reader (data_text (splitlines pre) ds) names = Some df0 /\
    df_rows page_frame = df_rows df0 /\
    (one_row_per_line line_reader ->
       length (df_rows page_frame) = length (filter survives region)).
Proof.
  split; [vm_compute; reflexivity|].
  apply (@one_row_per_surviving_line _ line_reader (response_of 200 page) 2 page_frame).
  vm_compute. reflexivity.
Defined.

Lemma same_body_same_table_witness :
  fst (sounding_exists (serve page) never_raises
         (build_url 2024 3 5 12 76679 (lit "naconf")) DEFAULT_TIMEOUT [])
    = Return (true, Some (response_of 200 page)) /\
  fst (sounding_exists serve_mirror never_raises
         (build_url 1999 12 31 0 10410 (lit "europe")) DEFAULT_TIMEOUT
         [the_request (lit "https://weather.uwyo.edu/") 5])
    = Return (true, Some mirror_response) /\
  text (response_of 200 page) = text mirror_response /\
  fst (get_wyoming_sounding (serve page) never_raises line_reader
         2024 3 5 12 76679 (lit "naconf") 2 [])
  = fst (get_wyoming_sounding serve_mirror never_raises line_reader
           1999 12 31 0 10410 (lit "europe") 2
           [the_request (lit "https://weather.uwyo.edu/") 5]).
Proof.
  split; [vm_compute; reflexivity|]. split; [vm_compute; reflexivity|].
  split; [reflexivity|].
  apply (@same_body_same_table (serve page) serve_mirror never_raises never_raises
           _ line_reader 2024 3 5 12 76679 (lit "naconf") 1999 12 31 0 10410
           (lit "europe") 2 [] [the_request (lit "https://weather.uwyo.edu/") 5]
           (response_of 200 page) mirror_response).
  - vm_compute. reflexivity.
  - vm_compute. reflexivity.
  - reflexivity.
Defined.

Lemma header_access_unguarded_witness :
  fst (sounding_exists (serve short_page) never_raises
         (build_url 2024 3 5 12 76679 (lit "naconf")) DEFAULT_TIMEOUT [])
    = Return (true, Some (response_of 200 short_page)) /\
  first_block (text (response_of 200 short_page)) = Some (lit "title") /\
  (Z.of_nat (length (splitlines (lit "title"))) <= 2)%Z /\
  fst (get_wyoming_sounding (serve short_page) never_raises line_reader
         2024 3 5 12 76679 (lit "naconf") 2 []) = Raise IndexError.
Proof.
  split; [vm_compute; reflexivity|]. split; [vm_compute; reflexivity|].
  split; [vm_compute; discriminate|].
  apply (@header_access_unguarded (serve short_page) never_raises _ line_reader
           2024 3 5 12 76679 (lit "naconf") 2 [] (response_of 200 short_page)
           (lit "title")).
  - vm_compute. reflexivity.
  - vm_compute. reflexivity.
  - vm_compute. discriminate.
Defined.

Lemma units_attribute_is_trimmed_line_witness :
  (0 <= 2)%Z /\
  extract_and_parse line_reader (response_of 200 page) 2 = Return page_frame /\
  exists pre,
    first_block (text (response_of 200 page)) = Some pre /\
    dict_get (lit "units") (df_attrs page_frame) =
      Some (match nth_error (splitlines pre) (Z.to_nat 2 + 1) with
            | Some ln => strip ln
            | None => []
            end).
Proof.
  split; [lia|]. split; [vm_compute; reflexivity|].
  apply (@units_attribute_is_trimmed_line _ line_reader (response_of 200 page) 2
           page_frame).
  - lia.
  - vm_compute. reflexivity.
Defined.

Lemma header_units_data_start_witness :
  (0 <= 0 < Z.of_nat (length indented_block))%Z /\
  header_line indented_block 0 = Return (lit "PRES HGHT TEMP") /\
  units_line indented_block 0 = Return (lit "hPa    m    C") /\
  data_start indented_block 0 = Return 2%Z.
Proof.
  assert (R : (0 <= 0 < Z.of_nat (length indented_block))%Z) by (vm_compute; split; [discriminate|reflexivity]).
  split; [exact R|].
  destruct (@header_units_data_start indented_block 0 R) as (Hh & Hu & _).
  split; [exact Hh|]. split; [exact Hu|]. reflexivity.
Defined.

(** C4 as stated fails: the units line is not the raw following line. *)
Lemma units_line_is_not_the_raw_line :
  nth_error indented_block 1 = Some (lit "  hPa    m    C ") /\
  units_line indented_block 0 = Return (lit "hPa    m    C") /\
  units_line indented_block 0 <> Return (lit "  hPa    m    C ").
Proof.
  split; [reflexivity|]. split; [reflexivity|]. vm_compute. discriminate.
Qed.

(** C7 as stated fails: the attached units differ from the line following
    the header, whose indentation is lost. *)
Lemma units_attribute_is_not_verbatim :
  exists df pre ln,
    extract_and_parse line_reader (response_of 200 page) 2 = Return df /\
    first_block (text (response_of 200 page)) = Some pre /\
    nth_error (splitlines pre) 3 = Some ln /\
    ln = lit "   hPa    m    C " /\
    dict_get (lit "units") (df_attrs df) = Some (lit "hPa    m    C") /\
    dict_get (lit "units") (df_attrs df) <> Some ln.
Proof.
  exists page_frame. eexists. eexists.
  split; [vm_compute; reflexivity|]. split; [vm_compute; reflexivity|].
  split; [vm_compute; reflexivity|]. split; [vm_compute; reflexivity|].
  split; [vm_compute; reflexivity|]. vm_compute. discriminate.
Qed.

(** C8 as stated fails: the URL built for the year 5 holds no four-digit
    year. *)
Lemma year_five_is_not_four_digits :
  ~ ClaimedUrl (build_url 5 3 5 12 76679 (lit "naconf")) (lit "naconf")
               (str_of_int 76679).
Proof.
  intros (Y & M & D & H & [LY FY] & _ & _ & _ & E).
  destruct Y as [|y1 [|y2 [|y3 [|y4 [|y5 Y]]]]]; try discriminate LY.
  apply (f_equal (fun l => nth 81 l 0%N)) in E. vm_compute in E. subst y4.
  cbn [forallb] in FY. rewrite !andb_true_iff in FY.
  destruct FY as (_ & _ & _ & F & _). discriminate F.
Qed.

(** C1 as stated fails: with a reader that infers its columns from the
    first hundred lines, as the one of pandas does, a page with 101
    surviving data lines gives a frame of 100 rows. *)
Lemma reader_skips_a_surviving_line :
  exists df pre ds region,
    extract_and_parse fwf_reader (response_of 200 ragged_page) 2 = Return df /\
    fst (get_wyoming_sounding (serve ragged_page) raise_for_status fwf_reader
           2024 3 5 12 76679 (lit "naconf") 2 []) = Return df /\
    first_block ragged_page = Some pre /\
    data_start (splitlines pre) 2 = Return ds /\
    UpToFirstStop (slice_from (splitlines pre) ds) region /\
    length (filter survives region) = 101 /\
    length (df_rows df) = 100.
Proof.
  eexists. eexists. eexists. eexists.
  split; [vm_compute; reflexivity|]. split; [vm_compute; reflexivity|].
  split; [vm_compute; reflexivity|]. split; [vm_compute; reflexivity|].
  split; [apply truncate_up_to_first_stop|].
  split; vm_compute; reflexivity.
Qed.

(** C2 as stated fails: the pair of tags is not taken greedily.  On a page
    with two blocks the call parses the first block alone and raises "No
    data rows found", while the text between the first opening tag and the
    last closing tag holds data lines. *)
Lemma block_is_not_taken_greedily :
  fst (get_wyoming_sounding (serve two_blocks) raise_for_status line_reader
         2024 3 5 12 76679 (lit "naconf") 2 [])
    = Raise (ValueError MSG_NO_ROWS) /\
  first_block two_blocks = Some first_of_two /\
  exists pre ds,
    greedy_block two_blocks = Some pre /\
    pre <> first_of_two /\
    data_start (splitlines pre) 2 = Return ds /\
    blank (join [LF] (data_lines (splitlines pre) ds)) = false.
Proof.
  split; [vm_compute; reflexivity|]. split; [vm_compute; reflexivity|].
  eexists. eexists.
  split; [vm_compute; reflexivity|]. split; [vm_compute; discriminate|].
  split; vm_compute; reflexivity.
Qed.

(** C3 as stated fails.  For a timeout that is not positive the call of
    [requests.get] raises a [ValueError], which the prober does not catch:
    it raises instead of classifying.  And a response with the status 300,
    which is not a 2xx status, is reported available with its body. *)
Lemma prober_raises_or_accepts_status_300 :
  sounding_exists (serve_checked 200 page) raise_for_status sample_url 0 []
    = (Raise (Uncaught (lit "ValueError")), [the_request sample_url 0]) /\
  sounding_exists (serve_checked 300 page) raise_for_status sample_url 30 []
    = (Return (true, Some (response_of 300 page)), [the_request sample_url 30]).
Proof. split; vm_compute; reflexivity. Qed.

(** The scenarios of the specification, evaluated. *)

Example no_data_body_is_unavailable :
  sounding_exists (serve no_data_page) never_raises sample_url 30 []
  = (Return (false, Some (response_of 200 no_data_page)), [the_request sample_url 30]) /\
  fst (get_wyoming_sounding (serve no_data_page) never_raises line_reader
         2024 3 5 12 76679 (lit "naconf") 2 [])
  = Raise (ValueError MSG_UNAVAILABLE).
Proof. split; vm_compute; reflexivity. Qed.

Example error_status_is_unavailable :
  sounding_exists (serve_checked 404 page) raise_for_status sample_url 30 []
    = (Return (false, None), [the_request sample_url 30]) /\
  sounding_exists (serve_checked 503 page) raise_for_status sample_url 30 []
    = (Return (false, None), [the_request sample_url 30]).
Proof. split; vm_compute; reflexivity. Qed.

Example blank_data_lines_raise_no_rows :
  fst (get_wyoming_sounding (serve blank_page) never_raises line_reader
         2024 3 5 12 76679 (lit "naconf") 2 [])
  = Raise (ValueError MSG_NO_ROWS).
Proof. vm_compute. reflexivity. Qed.

Example page_gives_two_rows_three_columns :
  fst (get_wyoming_sounding (serve page) never_raises line_reader
         2024 3 5 12 76679 (lit "naconf") 2 []) = Return page_frame /\
  length (df_rows page_frame) = 2 /\ length (df_columns page_frame) = 3.
Proof. split; [vm_compute; reflexivity|]. split; reflexivity. Qed.

Example sample_url_text :
  sample_url =
  lit ("https://weather.uwyo.edu/cgi-bin/sounding?region=naconf&TYPE=TEXT%3ALIST"
       ++ "&YEAR=2024&MONTH=03&FROM=0512&TO=0512&STNM=76679").
Proof. vm_compute. reflexivity. Qed.

Example negative_day_is_not_padded :
  format_02d (-5) = lit "-5" /\ format_02d 7 = lit "07" /\ format_02d 123 = lit "123".
Proof. repeat split; vm_compute; reflexivity. Qed.

Example separator_lines :
  is_separator (lit "  ----------  ") = true /\ is_separator (lit "----") = false /\
  is_separator (lit "----- x") = false.
Proof. repeat split; vm_compute; reflexivity. Qed.

Example first_block_is_lazy :
  first_block (lit "a<PrE id=1>x</pre>y</PRE>") = Some (lit "x").
Proof. vm_compute. reflexivity. Qed.

End Examples.

(** ** Further properties of the parsing steps *)

Module MoreFacts.
Import PyStr Regex Wyoming Spec PyStrFacts RegexFacts PatternFacts ProberFacts ParserFacts.
Import TextFacts PipelineFacts TableFacts.

Lemma truncate_cons (ln : pystr) (rest : list pystr) :
  truncate (ln :: rest) = if has_stop_marker ln then [] else ln :: truncate rest.
Proof.
  unfold truncate, cut, slice_to. cbn [cut_from].
  destruct (has_stop_marker ln); [reflexivity|].
  assert (S : forall i l, cut_from (S i) l = option_map S (cut_from i l)).
  { intros i l. revert i. induction l as [|x l IH]; intros i; cbn [cut_from];
      [reflexivity|]. destruct (has_stop_marker x); [reflexivity|]. apply IH. }
  rewrite S. destruct (cut_from 0 rest); reflexivity.
Qed.

Lemma contains_head_in (c : char) (mk ln : pystr) :
  Contains (c :: mk) ln -> In c ln.
Proof. intros (a & b & ->). apply in_or_app. right. now left. Qed.

Lemma blank_all_space (ln : pystr) (c : char) :
  blank ln = true -> In c ln -> is_space c = true.
Proof. unfold blank. rewrite forallb_forall. auto. Qed.

Lemma separator_chars (ln : pystr) (c : char) :
  Separator ln -> In c ln -> is_space c = true \/ c = DASH.
Proof.
  intros (a & n & b & -> & Ha & Hb & _) Hin.
  apply in_app_or in Hin as [Hin|Hin]; [left; now apply (@blank_all_space a)|].
  apply in_app_or in Hin as [Hin|Hin]; [|left; now apply (@blank_all_space b)].
  right. now apply repeat_spec in Hin.
Qed.

(** A line with a stop marker is neither blank nor a separator. *)
Lemma stop_line_is_kept (ln : pystr) :
  has_stop_marker ln = true -> keep ln = true.
Proof.
  intros H. apply has_stop_marker_iff in H.
  assert (Hc : exists c, In c ln /\ is_space c = false /\ c <> DASH).
  { destruct H as [H|[H|H]].
    - exists (ch "#"). split; [now apply contains_head_in in H|]. now split.
    - exists (ch "S"). split; [now apply contains_head_in in H|]. now split.
    - exists (ch "O"). split; [now apply contains_head_in in H|]. now split. }
  destruct Hc as (c & Hin & Hs & Hd).
  rewrite keep_survives. apply survives_iff. split.
  - destruct (blank ln) eqn:B; [|reflexivity].
    rewrite (@blank_all_space _ _ B Hin) in Hs. discriminate.
  - intros Hsep. destruct (@separator_chars _ _ Hsep Hin) as [E|E]; congruence.
Qed.

(** X4.  A line with a stop marker is never blank and never a separator,
    and a separator is never blank; so dropping blank and separator lines
    before cutting at the first stop marker gives the same data lines as
    the code's cutting first and dropping afterwards. *)
Theorem filtering_commutes_with_truncation (candidates : list pystr) :
  (forall ln, has_stop_marker ln = true -> blank ln = false /\ is_separator ln = false) /\
  (forall ln, is_separator ln = true -> blank ln = false) /\
  truncate (filter keep candidates) = filter keep (truncate candidates).
Proof.
  split; [|split].
  - intros ln H. apply stop_line_is_kept in H. unfold keep in H.
    apply andb_true_iff in H as [Hb Hs]. rewrite truthy_strip in Hb.
    split; [now apply negb_true_iff in Hb|now apply negb_true_iff in Hs].
  - intros ln H. apply is_separator_iff in H.
    destruct H as (a & n & b & -> & _ & _ & Hn).
    destruct n as [|n]; [lia|]. rewrite !blank_app. cbn [repeat blank forallb].
    change (is_space DASH) with false. now rewrite andb_false_r.
  - induction candidates as [|ln rest IH]; [reflexivity|].
    rewrite truncate_cons. cbn [filter].
    destruct (has_stop_marker ln) eqn:Hs.
    + rewrite (@stop_line_is_kept ln Hs), truncate_cons, Hs. reflexivity.
    + destruct (keep ln) eqn:Hk.
      * rewrite truncate_cons, Hs. cbn [filter]. rewrite Hk. now f_equal.
      * cbn [filter]. rewrite Hk. exact IH.
Qed.

Lemma forallb_rev_eq {A} (f : A -> bool) (l : list A) :
  forallb f (rev l) = forallb f l.
Proof.
  induction l as [|x l IH]; [reflexivity|]. cbn [rev forallb].
  rewrite forallb_app, IH. cbn [forallb]. rewrite andb_true_r. apply andb_comm.
Qed.

Lemma split_from_tokens (acc s : pystr) :
  forallb visible acc = true ->
  Forall token (split_from acc s) /\
  concat (split_from acc s) = rev acc ++ filter visible s.
Proof.
  revert acc. induction s as [|c s IH]; intros acc Hacc; cbn [split_from filter].
  - destruct acc as [|a acc]; [split; [constructor|reflexivity]|].
    split.
    + constructor; [|constructor]. split.
      * intros E. apply (f_equal (@length _)) in E. rewrite length_rev in E. discriminate.
      * rewrite forallb_rev_eq. exact Hacc.
    + cbn [concat]. now rewrite !app_nil_r.
  - destruct (is_space c) eqn:Hc.
    + replace (visible c) with false by (unfold visible; now rewrite Hc).
      destruct acc as [|a acc].
      * destruct (IH [] eq_refl) as [Ht Hcat]. split; assumption.
      * destruct (IH [] eq_refl) as [Ht Hcat]. split.
        -- constructor; [|assumption]. split.
           ++ intros E. apply (f_equal (@length _)) in E. rewrite length_rev in E.
              discriminate.
           ++ rewrite forallb_rev_eq. exact Hacc.
        -- cbn [concat]. rewrite Hcat. reflexivity.
    + assert (Hv : visible c = true) by (unfold visible; now rewrite Hc).
      rewrite Hv.
      assert (Hacc' : forallb visible (c :: acc) = true).
      { cbn [forallb]. now rewrite Hv. }
      destruct (IH (c :: acc) Hacc') as [Ht Hcat]. split; [assumption|].
      rewrite Hcat. cbn [rev]. now rewrite <- app_assoc.
Qed.

Lemma split_from_blank_prefix (a s : pystr) :
  blank a = true -> split_from [] (a ++ s) = split_from [] s.
Proof.
  induction a as [|c a IH]; [reflexivity|]. cbn [blank forallb app split_from].
  intros H. apply andb_true_iff in H as [Hc Ha]. rewrite Hc. now apply IH.
Qed.

Lemma split_from_blank_suffix (t b acc : pystr) :
  blank b = true -> split_from acc (t ++ b) = split_from acc t.
Proof.
  intros Hb. revert acc. induction t as [|c t IH]; intros acc.
  - cbn [app]. destruct b as [|c b]; [reflexivity|].
    cbn [blank forallb] in Hb. apply andb_true_iff in Hb as [Hc Hb].
    cbn [split_from]. rewrite Hc.
    assert (E : split_from [] b = []).
    { clear Hc. induction b as [|d b IHb]; [reflexivity|].
      cbn [forallb] in Hb. apply andb_true_iff in Hb as [Hd Hb].
      cbn [split_from]. rewrite Hd. now apply IHb. }
    rewrite E. destruct acc; reflexivity.
  - cbn [app split_from]. rewrite !IH. reflexivity.
Qed.

Lemma split_strip (s : pystr) : split (strip s) = split s.
Proof.
  destruct (strip_split s) as (a & b & Hs & Ha & Hb). unfold split.
  rewrite Hs at 2. rewrite split_from_blank_prefix by exact Ha.
  now rewrite split_from_blank_suffix.
Qed.

Lemma filter_visible_blank (s : pystr) :
  blank s = true -> filter visible s = [].
Proof.
  induction s as [|c s IH]; [reflexivity|]. cbn [blank forallb filter].
  intros H. apply andb_true_iff in H as [Hc Hs]. unfold visible at 1.
  rewrite Hc. now apply IH.
Qed.

(** X5.  The column names are the whitespace-separated tokens of the header
    line as it stands in the block: trimming it first changes nothing, every
    name is non-empty and free of whitespace, the names put end to end are
    the header line without its whitespace, and there is no name at all
    exactly when the header line is blank. *)
Theorem column_names_are_header_tokens
        (lines : list pystr) (header_idx : Z) (raw : pystr) :
  index lines header_idx = Some raw ->
  exists hl,
    header_line lines header_idx = Return hl /\
    split hl = split raw /\
    Forall token (split hl) /\
    concat (split hl) = filter visible raw /\
    (split hl = [] <-> blank raw = true).
Proof.
  intros H. exists (strip raw). unfold header_line. rewrite H.
  split; [reflexivity|]. split; [apply split_strip|].
  rewrite split_strip. destruct (@split_from_tokens [] raw eq_refl) as [Ht Hc].
  split; [exact Ht|]. split; [exact Hc|]. split.
  - intros E. unfold split in E. rewrite E in Hc. cbn [concat rev app] in Hc.
    clear -Hc. induction raw as [|c raw IH]; [reflexivity|].
    cbn [filter] in Hc. unfold visible at 1 in Hc.
    cbn [blank forallb]. destruct (is_space c); [|discriminate]. now apply IH.
  - intros B. unfold split in *. rewrite (@filter_visible_blank raw B) in Hc.
    cbn [rev app] in Hc. destruct (split_from [] raw) as [|t ts]; [reflexivity|].
    inversion Ht as [|? ? [Hne _] _]; subst. cbn [concat] in Hc.
    apply app_eq_nil in Hc as [Hc _]. contradiction.
Qed.

Lemma map_last_snoc {A} (f : A -> A) (init : list A) (z : A) :
  map_last f (init ++ [z]) = init ++ [f z].
Proof.
  unfold map_last. rewrite rev_app_distr. cbn [rev app map_first].
  now rewrite rev_involutive.
Qed.

Lemma length_map_first {A} (f : A -> A) (xs : list A) :
  length (map_first f xs) = length xs.
Proof. destruct xs; reflexivity. Qed.

Lemma length_outer_trim (xs : list pystr) : length (outer_trim xs) = length xs.
Proof.
  unfold outer_trim, map_last.
  now rewrite length_rev, length_map_first, length_rev, length_map_first.
Qed.

Lemma strip_join_outer (xs : list pystr) :
  xs <> [] -> Forall solid xs ->
  strip (join [LF] xs) = join [LF] (outer_trim xs) /\ Forall solid (outer_trim xs).
Proof.
  intros Hne Hs. destruct xs as [|x rest]; [contradiction|].
  inversion Hs as [|? ? Hx Hrest]; subst.
  destruct (join_cons [LF] x rest) as (t & Ht).
  assert (Hl : lstrip (join [LF] (x :: rest)) = join [LF] (lstrip x :: rest)).
  { rewrite !Ht. apply lstrip_app_solid. apply Hx. }
  assert (Hys : Forall solid (lstrip x :: rest)).
  { constructor; [now apply solid_lstrip|assumption]. }
  unfold outer_trim. cbn [map_first].
  destruct (@exists_last _ (lstrip x :: rest)) as (init & z & Hz); [discriminate|].
  destruct (join_snoc [LF] init) as (p & Hp).
  rewrite Hz in Hys. apply Forall_app in Hys as [Hinit Hzs].
  inversion Hzs as [|? ? Hzsolid _]; subst.
  rewrite Hz, map_last_snoc. split.
  - unfold strip. rewrite Hl, Hz, !Hp. apply rstrip_app_solid. apply Hzsolid.
  - apply Forall_app. split; [assumption|]. constructor; [|constructor].
    now apply solid_rstrip.
Qed.

Lemma join_blank_nil (xs : list pystr) :
  Forall solid xs -> blank (join [LF] xs) = true -> xs = [].
Proof.
  intros Hs Hb. destruct xs as [|x rest]; [reflexivity|].
  inversion Hs as [|? ? [Hx _] _]; subst.
  destruct (join_cons [LF] x rest) as (t & Ht). rewrite Ht, blank_app, Hx in Hb.
  discriminate.
Qed.

(** The reader's text, line by line. *)
Lemma text_lines_data_text (pre : pystr) (ds : Z) :
  data_lines (splitlines pre) ds <> [] ->
  data_text (splitlines pre) ds
    = join [LF] (outer_trim (data_lines (splitlines pre) ds)) /\
  text_lines (data_text (splitlines pre) ds)
    = outer_trim (data_lines (splitlines pre) ds).
Proof.
  intros Hne.
  destruct (@strip_join_outer _ Hne (data_lines_solid pre ds)) as [Hj Hsolid].
  split; [exact Hj|]. unfold data_text. rewrite Hj.
  destruct (outer_trim (data_lines (splitlines pre) ds)) as [|z zs] eqn:E.
  - apply (f_equal (@length _)) in E. rewrite length_outer_trim in E.
    destruct (data_lines (splitlines pre) ds); [contradiction|discriminate].
  - apply text_lines_join. eapply Forall_impl; [|exact Hsolid].
    intros ln [_ Hl]. exact Hl.
Qed.

(** X3.  When some data line survives, the text handed to the reader is the
    surviving lines joined by line feeds, except that the first line has
    lost its leading whitespace and the last its trailing whitespace; the
    lines in between are unchanged and none is added or dropped. *)
Theorem reader_text_is_trimmed_survivors (pre : pystr) (ds : Z) :
  let xs := data_lines (splitlines pre) ds in
  xs <> [] ->
  data_text (splitlines pre) ds = join [LF] (outer_trim xs) /\
  text_lines (data_text (splitlines pre) ds) = outer_trim xs /\
  length (outer_trim xs) = length xs.
Proof.
  intros xs Hne. destruct (text_lines_data_text pre ds Hne) as [Hj Ht].
  split; [exact Hj|]. split; [exact Ht|]. apply length_outer_trim.
Qed.

Section More.
Variable server : list Request -> Request -> get_result.
Variable raises_for_status : Response -> bool.
Variable Cell : Type.
Variable read_fwf : pystr -> list pystr -> option (DataFrame Cell).

Let parse := extract_and_parse read_fwf.
Let get := get_wyoming_sounding server raises_for_status read_fwf.

Ltac mismatch :=
  match goal with
  | H : Raise _ = Raise _ |- _ =>
      solve [discriminate H | injection H as H; vm_compute in H; discriminate H]
  | H : Return _ = Raise _ |- _ => discriminate H
  | H : Raise _ = Return _ |- _ => discriminate H
  end.

(** X1.  The parsing steps raise [IndexError] exactly when a block is found
    and [header_idx] does not index one of its lines, counting from the
    front or, when negative, from the back. *)
Theorem index_error_exactly_out_of_range (r : Response) (header_idx : Z) :
  parse r header_idx = Raise IndexError <->
  exists pre,
    first_block (text r) = Some pre /\
    (header_idx < - Z.of_nat (length (splitlines pre)) \/
     Z.of_nat (length (splitlines pre)) <= header_idx)%Z.
Proof.
  pose proof (@parse_ending _ read_fwf r header_idx) as E. fold parse in E. split.
  - intros H. rewrite H in E. inversion E as [| pre Hb Hi | | |]; try mismatch.
    exists pre. split; [assumption|].
    destruct (Z_lt_le_dec header_idx (- Z.of_nat (length (splitlines pre))));
      [now left|].
    destruct (Z_lt_le_dec header_idx (Z.of_nat (length (splitlines pre))));
      [|now right].
    exfalso. assert (Hr : index (splitlines pre) header_idx <> None)
      by (apply index_some_range; lia). contradiction.
  - intros (pre & Hb & Hr).
    assert (Hi : index (splitlines pre) header_idx = None).
    { destruct (index (splitlines pre) header_idx) eqn:Ei; [|reflexivity].
      assert (Hs : index (splitlines pre) header_idx <> None) by congruence.
      apply index_some_range in Hs. lia. }
    inversion E; try reflexivity; try congruence.
    exfalso. apply first_block_has_pre in Hb. contradiction.
Qed.

(** X7.  "No data rows found" is raised exactly when the block and its
    header line are there and not one line survives truncation and
    filtering. *)
Theorem no_rows_exactly_when_nothing_survives (r : Response) (header_idx : Z) :
  parse r header_idx = Raise (ValueError MSG_NO_ROWS) <->
  exists pre ds,
    first_block (text r) = Some pre /\
    index (splitlines pre) header_idx <> None /\
    data_start (splitlines pre) header_idx = Return ds /\
    data_lines (splitlines pre) ds = [].
Proof.
  pose proof (@parse_ending _ read_fwf r header_idx) as E. fold parse in E. split.
  - intros H. rewrite H in E. inversion E as [| | pre ds Hb Hi Hd Hbl | |]; try mismatch.
    exists pre, ds. repeat split; try assumption.
    apply join_blank_nil; [apply data_lines_solid|assumption].
  - intros (pre & ds & Hb & Hi & Hd & Hn).
    assert (Hbl : blank (join [LF] (data_lines (splitlines pre) ds)) = true)
      by now rewrite Hn.
    inversion E; try reflexivity; try congruence.
    exfalso. apply first_block_has_pre in Hb. contradiction.
Qed.

(** X8.  With a reader that yields one row per non-blank line of its text,
    a returned frame has at least one row. *)
Theorem returned_table_is_never_empty
        (r : Response) (header_idx : Z) (df : DataFrame Cell) :
  one_row_per_line read_fwf ->
  parse r header_idx = Return df ->
  1 <= length (df_rows df).
Proof.
  intros Hreader H. apply parse_return in H
    as (pre & hl & u & ds & df0 & _ & _ & _ & _ & Hbl & Hr & ->).
  cbn [set_attr df_rows]. rewrite (Hreader _ _ _ Hr).
  unfold data_text. rewrite reader_text_lines by apply data_lines_solid.
  destruct (data_lines (splitlines pre) ds) as [|x xs]; [discriminate|].
  cbn [length]. lia.
Qed.

(** X2.  The call never raises [AttributeError]: the prober never reports
    available without a response, and a match of the block pattern always
    fills its group.  Its outcome is a frame, one of the three descriptive
    errors, [IndexError], an error raised inside the reader, or an
    exception that [requests.get] raised and the prober does not catch. *)
Theorem call_outcomes (year month day hour station : Z) (region : pystr)
        (header_idx : Z) (log : list Request) :
  let res := fst (get year month day hour station region header_idx log) in
  let rq := the_request (build_url year month day hour station region)
                        DEFAULT_TIMEOUT in
  res <> Raise AttributeError /\
  ((exists df, res = Return df) \/
   res = Raise (ValueError MSG_UNAVAILABLE) \/
   res = Raise (ValueError MSG_NO_PRE) \/
   res = Raise (ValueError MSG_NO_ROWS) \/
   res = Raise IndexError \/
   res = Raise ReaderError \/
   (exists cls, res = Raise (Uncaught cls) /\ server log rq = Escapes cls)).
Proof.
  intros res rq. subst res rq. unfold get. rewrite get_unfold, probe_unfold.
  cbn [fst].
  destruct (server log _) as [|cls|r] eqn:S.
  - split; [discriminate|]. auto.
  - split; [discriminate|]. do 6 right. now exists cls.
  - destruct (raises_for_status r); [split; [discriminate|]; auto|].
    destruct (negb (looks_empty (text r))); [|split; [discriminate|]; auto].
    pose proof (@parse_ending _ read_fwf r header_idx) as E.
    inversion E; (split; [discriminate|]); eauto 10.
Qed.
End More.

Lemma app_same_length {A} (a a' b b' : list A) :
  length a = length a' -> a ++ b = a' ++ b' -> a = a' /\ b = b'.
Proof.
  revert a'. induction a as [|x a IH]; intros [|x' a'] Hl H; try discriminate.
  - auto.
  - cbn [app] in H. injection H as -> H. cbn [length] in Hl. injection Hl as Hl.
    destruct (IH a' Hl H) as [-> ->]. auto.
Qed.

Lemma first_stop_char {A} (c : A) (a a' b b' : list A) :
  Forall (fun x => x <> c) a -> Forall (fun x => x <> c) a' ->
  a ++ c :: b = a' ++ c :: b' -> a = a' /\ b = b'.
Proof.
  revert a'. induction a as [|x a IH]; intros [|x' a'] Ha Ha' H; cbn [app] in H.
  - injection H as ->. auto.
  - injection H as <- _. inversion Ha'; subst. contradiction.
  - injection H as -> _. inversion Ha; subst. contradiction.
  - injection H as -> H. inversion Ha; inversion Ha'; subst.
    destruct (IH a') as [-> ->]; auto.
Qed.

Lemma ci_equal_length (p s : pystr) : ci_equal p s -> length s = length p.
Proof. intros H. symmetry. eapply Forall2_length. exact H. Qed.

Lemma first_pair_unique (body pre pre' : pystr) :
  FirstPair body pre -> FirstPair body pre' -> pre = pre'.
Proof.
  intros (before & tag & attrs & close & rest & Hb & Ht & Ha & Hc & Hleft & Hshort)
         (before' & tag' & attrs' & close' & rest' & Hb' & Ht' & Ha' & Hc' & Hleft' & Hshort').
  assert (Ho : OpensAt (tag ++ attrs ++ [ch ">"] ++ pre ++ close ++ rest))
    by now exists tag, attrs, pre, close, rest.
  assert (Ho' : OpensAt (tag' ++ attrs' ++ [ch ">"] ++ pre' ++ close' ++ rest'))
    by now exists tag', attrs', pre', close', rest'.
  rewrite Hb in Hb'.
  assert (E : before = before' /\
              tag ++ attrs ++ [ch ">"] ++ pre ++ close ++ rest
              = tag' ++ attrs' ++ [ch ">"] ++ pre' ++ close' ++ rest').
  { apply app_eq_app in Hb' as [l [[E1 E2]|[E1 E2]]].
    - destruct l as [|c l].
      + rewrite app_nil_r in E1. cbn [app] in E2. auto.
      + exfalso. apply (Hleft before' (c :: l) E1); [discriminate|].
        rewrite <- E2. exact Ho'.
    - destruct l as [|c l].
      + rewrite app_nil_r in E1. cbn [app] in E2. auto.
      + exfalso. apply (Hleft' before (c :: l) E1); [discriminate|].
        rewrite <- E2. exact Ho. }
  destruct E as [_ E].
  apply app_same_length in E as [_ E];
    [|now rewrite (ci_equal_length Ht), (ci_equal_length Ht')].
  apply first_stop_char in E as [_ E]; [|assumption|assumption].
  apply app_eq_app in E as [l [[E1 E2]|[E1 E2]]].
  - destruct l as [|c l]; [now rewrite app_nil_r in E1|].
    exfalso. apply (Hshort pre' (c :: l) E1); [discriminate|].
    rewrite <- E2. now exists close', rest'.
  - destruct l as [|c l]; [now rewrite app_nil_r in E1|].
    exfalso. apply (Hshort' pre (c :: l) E1); [discriminate|].
    rewrite <- E2. now exists close, rest.
Qed.

(** X9.  The block that is parsed is the inner text of the first pair of
    tags and nothing else: leftmost opening tag that has a closing tag
    after it, up to the first closing tag.  There is no block exactly when
    the body has no such pair. *)
Theorem first_block_is_the_first_pair (body pre : pystr) :
  (first_block body = Some pre <-> FirstPair body pre) /\
  (first_block body = None <-> ~ HasPreBlock body).
Proof.
  assert (Hnone : first_block body = None <-> ~ HasPreBlock body).
  { rewrite <- search_none_no_pre. unfold first_block.
    destruct (re_search re_flags_pre PRE_RE body) as [m|] eqn:S.
    - destruct (@group_filled _ _ S) as [p Hp]. rewrite Hp.
      split; discriminate.
    - tauto. }
  split; [|exact Hnone]. split; [apply first_block_first_pair|].
  intros H. destruct (first_block body) as [pre'|] eqn:E.
  - f_equal. apply first_block_first_pair in E.
    now apply (@first_pair_unique body).
  - exfalso. apply (proj1 Hnone eq_refl).
    destruct H as (before & tag & attrs & close & rest & Hb & Ht & Ha & Hc & _).
    exists before, (tag ++ attrs ++ [ch ">"] ++ pre ++ close ++ rest).
    split; [assumption|]. now exists tag, attrs, pre, close, rest.
Qed.

Lemma contains_in_suffix (mk a s : pystr) : Contains mk s -> Contains mk (a ++ s).
Proof. intros (u & v & ->). exists (a ++ u), v. now rewrite <- app_assoc. Qed.

Lemma contains_in_prefix (mk s b : pystr) : Contains mk s -> Contains mk (s ++ b).
Proof. intros (u & v & ->). exists u, (v ++ b). now rewrite <- !app_assoc. Qed.

Lemma stop_marker_in_suffix (a s : pystr) : HasStopMarker s -> HasStopMarker (a ++ s).
Proof.
  unfold HasStopMarker. intros [H|[H|H]]; [left|right; left|right; right];
    now apply contains_in_suffix.
Qed.

Lemma stop_marker_in_prefix (s b : pystr) : HasStopMarker s -> HasStopMarker (s ++ b).
Proof.
  unfold HasStopMarker. intros [H|[H|H]]; [left|right; left|right; right];
    now apply contains_in_prefix.
Qed.

Lemma separator_pad_left (a s : pystr) :
  blank a = true -> Separator s -> Separator (a ++ s).
Proof.
  intros Ha (u & n & v & -> & Hu & Hv & Hn). exists (a ++ u), n, v.
  rewrite blank_app, Ha, Hu, <- app_assoc. auto.
Qed.

Lemma separator_pad_right (s b : pystr) :
  blank b = true -> Separator s -> Separator (s ++ b).
Proof.
  intros Hb (u & n & v & -> & Hu & Hv & Hn). exists u, n, (v ++ b).
  rewrite blank_app, Hb, Hv, <- !app_assoc. auto.
Qed.

Lemma clean_lstrip (x : pystr) : clean x -> clean (lstrip x).
Proof.
  intros (Hb & Hs & Hm). destruct (lstrip_split x) as (a & Hx & Ha & _).
  split; [|split].
  - rewrite Hx, blank_app, Ha in Hb. exact Hb.
  - intros H. apply Hs. rewrite Hx. now apply separator_pad_left.
  - intros H. apply Hm. rewrite Hx. now apply stop_marker_in_suffix.
Qed.

Lemma clean_rstrip (x : pystr) : clean x -> clean (rstrip x).
Proof.
  intros (Hb & Hs & Hm). destruct (rstrip_split x) as (b & Hx & Hbb & _).
  split; [|split].
  - rewrite Hx, blank_app, Hbb, andb_true_r in Hb. exact Hb.
  - intros H. apply Hs. rewrite Hx. now apply separator_pad_right.
  - intros H. apply Hm. rewrite Hx. now apply stop_marker_in_prefix.
Qed.

Lemma Forall_map_first {A} (P : A -> Prop) (f : A -> A) (xs : list A) :
  (forall x, P x -> P (f x)) -> Forall P xs -> Forall P (map_first f xs).
Proof.
  intros Hf H. destruct xs as [|x rest]; [constructor|].
  inversion H; subst. constructor; auto.
Qed.

Lemma Forall_map_last {A} (P : A -> Prop) (f : A -> A) (xs : list A) :
  (forall x, P x -> P (f x)) -> Forall P xs -> Forall P (map_last f xs).
Proof.
  intros Hf H. unfold map_last. apply Forall_rev.
  apply Forall_map_first; [assumption|]. now apply Forall_rev.
Qed.

Lemma data_lines_clean (lines : list pystr) (ds : Z) :
  Forall clean (data_lines lines ds).
Proof.
  unfold data_lines. apply Forall_forall. intros ln Hin.
  apply filter_In in Hin as [Hin Hk].
  rewrite keep_survives in Hk. apply survives_iff in Hk as [Hb Hs].
  split; [assumption|]. split; [assumption|].
  destruct (truncate_up_to_first_stop (slice_from lines ds)) as [Hr _].
  rewrite Forall_forall in Hr. now apply Hr.
Qed.

(** X10.  When some data line survives, no line of the text handed to the
    reader is blank, a separator, or a line with a stop marker. *)
Theorem reader_text_is_clean (pre : pystr) (ds : Z) (t : pystr) :
  data_lines (splitlines pre) ds <> [] ->
  In t (text_lines (data_text (splitlines pre) ds)) ->
  blank t = false /\ ~ Separator t /\ ~ HasStopMarker t.
Proof.
  intros Hne Hin.
  destruct (text_lines_data_text pre ds Hne) as [_ Ht].
  rewrite Ht in Hin. clear Ht.
  assert (H : Forall clean (outer_trim (data_lines (splitlines pre) ds))).
  { unfold outer_trim. apply Forall_map_last; [apply clean_rstrip|].
    apply Forall_map_first; [apply clean_lstrip|]. apply data_lines_clean. }
  rewrite Forall_forall in H. now apply H.
Qed.

End MoreFacts.

(** ** The further properties at sample inputs *)

Module MoreExamples.
Import PyStr Regex Wyoming Spec Sample.
Import PyStrFacts RegexFacts PatternFacts ProberFacts ParserFacts TextFacts PipelineFacts.
Import UrlFacts TableFacts MoreFacts Examples.

Lemma reader_text_is_trimmed_survivors_witness :
  data_lines (splitlines page_block) 5 <> [] /\
  data_text (splitlines page_block) 5
    = join [LF] (outer_trim (data_lines (splitlines page_block) 5)) /\
  text_lines (data_text (splitlines page_block) 5)
    = outer_trim (data_lines (splitlines page_block) 5) /\
  length (outer_trim (data_lines (splitlines page_block) 5))
    = length (data_lines (splitlines page_block) 5).
Proof.
  split; [vm_compute; discriminate|].
  apply (@reader_text_is_trimmed_survivors page_block 5).
  vm_compute. discriminate.
Defined.

Lemma column_names_are_header_tokens_witness :
  index (splitlines page_block) 2 = Some (lit "  PRES HGHT TEMP") /\
  exists hl,
    header_line (splitlines page_block) 2 = Return hl /\
    split hl = split (lit "  PRES HGHT TEMP") /\
    Forall token (split hl) /\
    concat (split hl) = filter visible (lit "  PRES HGHT TEMP") /\
    (split hl = [] <-> blank (lit "  PRES HGHT TEMP") = true).
Proof.
  split; [vm_compute; reflexivity|].
  apply (@column_names_are_header_tokens (splitlines page_block) 2
           (lit "  PRES HGHT TEMP")).
  vm_compute. reflexivity.
Defined.

Lemma returned_table_is_never_empty_witness :
  one_row_per_line line_reader /\
  extract_and_parse line_reader (response_of 200 page) 2 = Return page_frame /\
  1 <= length (df_rows page_frame).
Proof.
  split; [exact line_reader_one_row_per_line|].
  split; [vm_compute; reflexivity|].
  apply (@returned_table_is_never_empty _ line_reader (response_of 200 page) 2
           page_frame).
  - exact line_reader_one_row_per_line.
  - vm_compute. reflexivity.
Defined.

Lemma reader_text_is_clean_witness :
  data_lines (splitlines page_block) 5 <> [] /\
  In (lit "   900  100   15") (text_lines (data_text (splitlines page_block) 5)) /\
  blank (lit "   900  100   15") = false /\
  ~ Separator (lit "   900  100   15") /\
  ~ HasStopMarker (lit "   900  100   15").
Proof.
  assert (Hne : data_lines (splitlines page_block) 5 <> [])
    by (vm_compute; discriminate).
  assert (Hin : In (lit "   900  100   15")
                   (text_lines (data_text (splitlines page_block) 5)))
    by (vm_compute; auto).
  split; [exact Hne|]. split; [exact Hin|].
  apply (@reader_text_is_clean page_block 5 (lit "   900  100   15") Hne Hin).
Defined.

End MoreExamples.
